(** * pride.py: a wavy pride flag for the Tufty 2040 badge

    A shallow embedding of [src/pride.py] and the properties of it
    that the specification states.

    Conventions of the embedding.
    - Python [int] is [Z].
    - Python [float] is idealised as an exact number: a rational [Q]
      wherever the program only adds, divides and compares, and a
      real [R] where [math.sin] comes in.  Rounding error of the
      machine floats is not modelled by [frange] and [col_offsets].
      Where rounding matters the same code is modelled a second time:
      on binary64 floats ([float_collect]), and on floats as the reals
      they denote with a rounding function after every operation
      ([col_offsets_fl]).
    - An exception is a value of [exn]; code that can raise returns a
      [result].
    - The display is modelled by the sequence of commands it received
      ([trace]); code that draws is a function in the monad [M], which
      threads the trace and propagates exceptions.
    - The parsed configuration ([json.load]) is a dictionary from
      strings to JSON values, [gmap string json]. *)

From Stdlib Require Import ZArith QArith Qminmax Qround Qreals Reals Psatz List.
From Stdlib Require Import PrimFloat.
From stdpp Require Import gmap strings list.
Import ListNotations.

Local Open Scope Z_scope.

(** ** Exceptions and the drawing monad *)

Inductive exn : Set :=
| UnboundLocalError
| NameError
| IndexError
| ValueError
| ZeroDivisionError
| TypeError.

Inductive result (A : Type) : Type :=
| Ok (a : A)
| Raise (e : exn).

Arguments Ok {A} a.
Arguments Raise {A} e.

Abbreviation rgb := (Z * Z * Z)%type.
Abbreviation point := (Z * Z)%type.

(** The calls made on [display] that the modelled code performs. *)
Inductive cmd : Set :=
| SetPalette (p : list rgb)
| SetPen (c : Z)
| Clear
| Polygon (pts : list point)
| Update
| SetBacklight (level : Q).

Abbreviation trace := (list cmd).

Definition M (A : Type) : Type := trace -> result (A * trace).

Definition ret {A} (a : A) : M A := fun tr => Ok (a, tr).

Definition bind {A B} (m : M A) (k : A -> M B) : M B :=
  fun tr =>
    match m tr with
    | Ok (a, tr') => k a tr'
    | Raise e => Raise e
    end.

Definition raise {A} (e : exn) : M A := fun _ => Raise e.

Definition emit (c : cmd) : M unit := fun tr => Ok (tt, tr ++ [c]).

Definition lift {A} (r : result A) : M A :=
  fun tr => match r with Ok a => Ok (a, tr) | Raise e => Raise e end.

Notation "x <- m ;; k" := (bind m (fun x => k))
  (at level 100, m at level 99, right associativity).
Notation "m ;;; k" := (bind m (fun _ => k))
  (at level 100, right associativity).

(** Python subscription [l[i]] on a list: negative indices count from
    the end, anything out of range raises [IndexError]. *)
Definition py_getitem {A} (l : list A) (i : Z) : result A :=
  let n := Z.of_nat (length l) in
  let j := if i <? 0 then i + n else i in
  if (j <? 0) || (n <=? j) then Raise IndexError
  else match l !! Z.to_nat j with
       | Some a => Ok a
       | None => Raise IndexError
       end.

(** ** Module constants *)

Definition COLS : Z := 12.

(** [FOUR_PI = 12.566] *)
Definition FOUR_PI : Q := 12566 # 1000.

(** Python [min(a, b)]: the first argument unless the second is
    strictly smaller. *)
Definition py_min (a b : Q) : Q :=
  if Qle_bool a b then a else b.

(** [range(n)] *)
Definition range (n : nat) : list Z := map Z.of_nat (seq 0 n).

(** [WEIGHTS = [0.0] + [min(1.0, (i / COLS) + 0.2) for i in range(COLS)]] *)
Definition WEIGHTS : list Q :=
  [0%Q] ++ map (fun i => py_min 1 (inject_Z i / inject_Z COLS + (2 # 10))%Q)
               (range (Z.to_nat COLS)).

(** [FLAGS = ["pan", "pride"]] *)
Definition FLAGS : list string := ["pan"; "pride"]%string.

(** ** Configuration *)

#[warnings="-register-all"]
Inductive json : Type :=
| JNull
| JBool (b : bool)
| JNum (q : Q)
| JStr (s : string)
| JArr (l : list json)
| JObj (o : list (string * json)).

(** [v == s] for a JSON value [v] and a Python string [s]. *)
Definition json_is_str (v : json) (s : string) : bool :=
  match v with
  | JStr t => String.eqb t s
  | _ => false
  end.

(** [l.index(v)], counting from [i]; [ValueError] when absent. *)
Fixpoint index_from (l : list string) (v : json) (i : Z) : result Z :=
  match l with
  | [] => Raise ValueError
  | s :: l' => if json_is_str v s then Ok i else index_from l' v (i + 1)
  end.

Definition list_index (l : list string) (v : json) : result Z :=
  index_from l v 0.

(** The QR code object, known here by the text it was given. *)
Record QRCode : Type := { qr_text : json }.

(** [load_config], from the dictionary that [json.load] returned. *)
Definition load_config (config : gmap string json)
  : Z * json * json * QRCode :=
  let flag :=
    match config !! "default_flag"%string with
    | Some v =>
        match list_index FLAGS v with
        | Ok i => i
        | Raise _ => 0
        end
    | None => 0
    end in
  let title :=
    match config !! "title"%string with
    | Some v => v
    | None => JStr "Lorem"
    end in
  let subtitle :=
    match config !! "subtitle"%string with
    | Some v => v
    | None => JStr "Ipsum edit"
    end in
  let code :=
    {| qr_text := match config !! "qrcode"%string with
                  | Some v => v
                  | None => JStr "https://example.com"
                  end |} in
  (flag, title, subtitle, code).

(** ** Palette and strip table *)

Definition pan_palette : list rgb :=
  [ (0, 0, 0); (255, 255, 255);
    (226, 28, 208); (181, 44, 169);
    (255, 245, 39); (218, 211, 58);
    (42, 195, 255); (55, 169, 214) ].

Definition pride_palette : list rgb :=
  [ (0, 0, 0); (255, 255, 255);
    (234, 53, 53); (202, 21, 21);
    (234, 158, 53); (202, 127, 21);
    (234, 209, 53); (202, 178, 21);
    (53, 234, 56); (21, 202, 25);
    (24, 69, 166); (26, 61, 137);
    (115, 31, 179); (98, 37, 144) ].

(** [a // b] on integers. *)
Definition py_floordiv (a b : Z) : result Z :=
  if b =? 0 then Raise ZeroDivisionError else Ok (a / b).

(** [swap_pallette(mode)].  The local [colors] is bound in the two
    branches only; the [return] reads it. *)
Definition swap_pallette (mode : string) : M (list (list Z) * Z) :=
  colors <-
    (if String.eqb mode "pan" then
       emit (SetPalette pan_palette) ;;;
       ret (Some [[2; 3]; [4; 5]; [6; 7]])
     else if String.eqb mode "pride" then
       emit (SetPalette pride_palette) ;;;
       ret (Some [[2; 3]; [4; 5]; [6; 7]; [8; 9]; [10; 11]; [12; 13]])
     else ret None) ;;
  match colors with
  | None => raise UnboundLocalError
  | Some cs =>
      h <- lift (py_floordiv 180 (Z.of_nat (length cs))) ;;
      ret (cs, h)
  end.

(** ** The sample generator [frange]

    A Python generator is a suspended frame: the yield it is parked
    at and its locals.  [next] resumes it up to the following yield;
    [None] is [StopIteration].

    The numbers here are exact rationals, which is what the generator
    computes on Python [int]s and what it computes on floats as long
    as no sum is rounded.  [num_next] further down is the same
    generator on any kind of number, and is the one used on floats. *)

Inductive frange_pc : Set :=
| Fresh        (* created, body not entered; [g_x] holds [start] *)
| AtYield101   (* parked at the first [yield x] *)
| AtYield104   (* parked at [yield x] inside the loop *)
| AtYield106.  (* parked at [yield stop] *)

Record frange_gen : Set := MkGen {
  g_pc : frange_pc;
  g_x : Q;
  g_stop : Q;
  g_step : Q
}.

Definition frange (start stop step : Q) : frange_gen :=
  MkGen Fresh start stop step.

(** [a > b] on numbers. *)
Definition Qgtb (a b : Q) : bool := negb (Qle_bool a b).

Definition next (g : frange_gen) : option (Q * frange_gen) :=
  match g_pc g with
  | Fresh =>
      Some (g_x g, MkGen AtYield101 (g_x g) (g_stop g) (g_step g))
  | AtYield101 =>
      let x := (g_x g + g_step g)%Q in
      Some (x, MkGen AtYield104 x (g_stop g) (g_step g))
  | AtYield104 =>
      if Qgtb (g_x g) (g_stop g) then
        Some (g_stop g, MkGen AtYield106 (g_x g) (g_stop g) (g_step g))
      else
        let x := (g_x g + g_step g)%Q in
        Some (x, MkGen AtYield104 x (g_stop g) (g_step g))
  | AtYield106 => None
  end.

(** [list(g)] with a bound on the number of calls of [next]: [Some l]
    when the generator stopped within the bound. *)
Fixpoint collect (fuel : nat) (g : frange_gen) : option (list Q) :=
  match fuel with
  | O => None
  | S fuel' =>
      match next g with
      | None => Some []
      | Some (v, g') =>
          match collect fuel' g' with
          | Some l => Some (v :: l)
          | None => None
          end
      end
  end.

(** [zip(g, l)] for a generator [g] and a list [l]: the generator is
    resumed once for each pair, never run to its end. *)
Fixpoint zip_gen (g : frange_gen) (l : list Q) : list (Q * Q) :=
  match l with
  | [] => []
  | w :: l' =>
      match next g with
      | None => []
      | Some (v, g') => (v, w) :: zip_gen g' l'
      end
  end.

(** ** Wave offsets *)

(** [int(r)]: truncation towards zero. *)
Definition py_int (r : R) : Z :=
  if Rle_dec 0 r then Int_part r else - Int_part (- r).

(** The pairs the comprehension of [draw_flag] iterates over. *)
Definition samples : list (Q * Q) :=
  zip_gen (frange 0 FOUR_PI (FOUR_PI / inject_Z (COLS + 1))%Q) WEIGHTS.

(** [col_offsets] of [draw_flag], for a given [tick], in exact
    arithmetic: no sum, quotient or product is rounded and [math.sin]
    is the sine.  [col_offsets_fl] further down has the rounding. *)
Definition col_offsets (tick : Q) : list Z :=
  let offset := (tick / 200)%Q in
  map (fun '(x, weight) =>
         py_int (Q2R (15 * weight) * sin (Q2R (offset + x))))
      samples.

(** ** The flag renderer *)

Fixpoint for_each {A} (l : list A) (body : A -> M unit) : M unit :=
  match l with
  | [] => ret tt
  | a :: l' => body a ;;; for_each l' body
  end.

Fixpoint enumerate_from {A} (i : Z) (l : list A) : list (Z * A) :=
  match l with
  | [] => []
  | a :: l' => (i, a) :: enumerate_from (i + 1) l'
  end.

Definition enumerate {A} (l : list A) : list (Z * A) := enumerate_from 0 l.

Section Renderer.

(** The display width, [display.get_bounds()]. *)
Variable WIDTH : Z.

Definition COL_WIDTH : Z := WIDTH / COLS.

(** The body of the inner loop of [draw_flag]. *)
Definition draw_quad (col_offsets : list Z) (height_per_strip : Z)
    (row : Z) (colors : list Z) (col : Z) : M unit :=
  o0 <- lift (py_getitem col_offsets col) ;;
  let p0 := (col * COL_WIDTH, row * height_per_strip + o0 + 30) in
  o1 <- lift (py_getitem col_offsets (col + 1)) ;;
  let p1 := (fst p0 + COL_WIDTH, row * height_per_strip + o1 + 30) in
  let p2 := (fst p1, snd p1 + height_per_strip) in
  let p3 := (fst p0, snd p0 + height_per_strip) in
  let m := snd p0 - snd p1 in
  (if m <? -2 then
     c <- lift (py_getitem colors 1) ;; emit (SetPen c)
   else
     c <- lift (py_getitem colors 0) ;; emit (SetPen c)) ;;;
  emit (Polygon [p0; p1; p2; p3]).

(** The two loops of [draw_flag], from the offset table on. *)
Definition draw_strips (col_offsets : list Z)
    (color_list : list (list Z)) (height_per_strip : Z) : M unit :=
  for_each (enumerate color_list) (fun '(row, colors) =>
    for_each (range (Z.to_nat COLS)) (fun col =>
      draw_quad col_offsets height_per_strip row colors col)).

Definition draw_flag (tick : Q) (color_list : list (list Z))
    (height_per_strip : Z) : M unit :=
  draw_strips (col_offsets tick) color_list height_per_strip.

End Renderer.

(** The polygons of a trace, each with the pen in force when it was
    drawn; [pen] is the pen before the trace. *)
Fixpoint painted (pen : Z) (tr : trace) : list (Z * list point) :=
  match tr with
  | [] => []
  | SetPen c :: tr' => painted c tr'
  | Polygon pts :: tr' => (pen, pts) :: painted pen tr'
  | _ :: tr' => painted pen tr'
  end.

(** ** The main loop *)

Inductive run_mode : Set := Run | Pause.

Record state : Type := MkState {
  flag : Z;
  mode : run_mode;
  tick : option Z;            (* [None]: not assigned yet *)
  strip_colors : list (list Z);
  strip_height : Z;
  show_fps : bool;
  show_qr : bool
}.

(** What one iteration reads from the outside. *)
Record inputs : Set := MkInputs {
  button_a : bool;
  button_b : bool;
  button_c : bool;
  button_up : bool;
  button_down : bool;
  ticks_ms : Z;               (* the clock, read when running *)
  lux_u16 : Z                 (* [lux.read_u16()] *)
}.

Definition set_flag_table (s : state) (f : Z) (t : list (list Z) * Z) : state :=
  MkState f (mode s) (tick s) (fst t) (snd t) (show_fps s) (show_qr s).

Definition len_FLAGS : Z := Z.of_nat (length FLAGS).

(** The body of [if button_up.read():]. *)
Definition press_up (s : state) : M state :=
  let flag' := if negb (flag s =? len_FLAGS - 1) then flag s + 1 else 0 in
  name <- lift (py_getitem FLAGS flag') ;;
  t <- swap_pallette name ;;
  ret (set_flag_table s flag' t).

(** The body of [if button_down.read():]. *)
Definition press_down (s : state) : M state :=
  let flag' := if negb (flag s =? 0) then flag s - 1 else len_FLAGS - 1 in
  name <- lift (py_getitem FLAGS flag') ;;
  t <- swap_pallette name ;;
  ret (set_flag_table s flag' t).

(** The button handling and the clock of one iteration: from
    [if mode == "run":] down to [tick = time.ticks_ms()]. *)
Definition poll_controls (s : state) (i : inputs) : M state :=
  let mode' :=
    match mode s with
    | Run => if button_a i then Pause else Run
    | Pause => if button_a i then Run else Pause
    end in
  s1 <- (if button_up i then press_up s else ret s) ;;
  s2 <- (if button_down i then press_down s1 else ret s1) ;;
  let show_qr' := if button_b i then negb (show_qr s2) else show_qr s2 in
  let show_fps' := if button_c i then negb (show_fps s2) else show_fps s2 in
  let tick' :=
    match mode' with
    | Run => Some (ticks_ms i)
    | Pause => tick s2
    end in
  ret (MkState (flag s2) mode' tick' (strip_colors s2) (strip_height s2)
         show_fps' show_qr').

(** The level passed to [display.set_backlight] at the end of an
    iteration. *)
Definition backlight_level (raw : Z) : Q :=
  let light := py_min (1 # 2) (inject_Z raw / 7000)%Q in
  ((1 # 2) + light)%Q.

Definition update_backlight (i : inputs) : M unit :=
  emit (SetBacklight (backlight_level (lux_u16 i))).

(** One iteration of the main loop without the overlay: the buttons,
    the flag, [display.update()] and the backlight.  The two lines of
    text or the QR code and the frame rate, which come between the
    flag and [display.update()], are in [loop_body] below, which is
    the whole body. *)
Definition iteration (WIDTH : Z) (s : state) (i : inputs) : M state :=
  s' <- poll_controls s i ;;
  emit (SetPen 0) ;;;
  emit Clear ;;;
  t <- (match tick s' with
        | Some t => ret t
        | None => raise NameError
        end) ;;
  draw_flag WIDTH (inject_Z t) (strip_colors s') (strip_height s') ;;;
  emit Update ;;;
  update_backlight i ;;;
  ret s'.

(** The state before the loop: the configuration is loaded, the mode
    is ["run"], the table of the configured flag is installed and
    [tick] is not assigned. *)
Definition startup (config : gmap string json) : M state :=
  let '(flag0, _, _, _) := load_config config in
  name <- lift (py_getitem FLAGS flag0) ;;
  t <- swap_pallette name ;;
  ret (MkState flag0 Run None (fst t) (snd t) false false).

(** ** Notions used by the statements *)

(** A strip table: every strip has a main and a shaded pen. *)
Definition pairs (cs : list (list Z)) : Prop :=
  Forall (fun p => length p = 2%nat) cs.

(** The flag index stays inside [FLAGS]. *)
Definition flag_in_range (s : state) : Prop := 0 <= flag s < len_FLAGS.

(** The state [s'] and the display carry the table of the variant
    that [flag s'] names: the strip colours and height are what
    [swap_pallette] returns for it, and the display received its
    palette as the last command. *)
Definition refreshed (s' : state) (tr tr' : trace) : Prop :=
  exists name p,
    py_getitem FLAGS (flag s') = Ok name /\
    swap_pallette name tr = Ok (strip_colors s', strip_height s', tr') /\
    tr' = tr ++ [SetPalette p].

(** The two commands that draw one filled quadrilateral. *)
Definition quad_cmds (q : Z * list point) : trace :=
  [SetPen (fst q); Polygon (snd q)].

(** The quadrilateral of strip [row] and column [col], as the loop
    body builds it from the offset table, with the pen it is filled
    with. *)
Definition quad_of (WIDTH : Z) (offsets : list Z) (height_per_strip : Z)
    (row : Z) (colors : list Z) (col : Z) (q : Z * list point) : Prop :=
  exists o0 o1,
    py_getitem offsets col = Ok o0 /\
    py_getitem offsets (col + 1) = Ok o1 /\
    let y0 := row * height_per_strip + o0 + 30 in
    let y1 := row * height_per_strip + o1 + 30 in
    let x0 := col * COL_WIDTH WIDTH in
    let x1 := x0 + COL_WIDTH WIDTH in
    snd q = [(x0, y0); (x1, y1); (x1, y1 + height_per_strip);
             (x0, y0 + height_per_strip)] /\
    py_getitem colors (if y0 - y1 <? -2 then 1 else 0) = Ok (fst q).

(** The pen rule of the code: with [tl] the top-left and [tr] the
    top-right corner, the second pen of the pair (the shade) when
    [tl.y - tr.y < -2], the first pen (the main colour) otherwise. *)
Definition code_pen_rule (colors : list Z) (tl tr : point) (pen : Z) : Prop :=
  (snd tl - snd tr < -2 -> py_getitem colors 1 = Ok pen) /\
  (-2 <= snd tl - snd tr -> py_getitem colors 0 = Ok pen).

(** The pen rule in the words of the specification: the shade when
    [tr.y - tl.y < -2], the main colour otherwise. *)
Definition spec_pen_rule (colors : list Z) (tl tr : point) (pen : Z) : Prop :=
  (snd tr - snd tl < -2 -> py_getitem colors 1 = Ok pen) /\
  (-2 <= snd tr - snd tl -> py_getitem colors 0 = Ok pen).

(** [rule] holds of every quadrilateral that [draw_strips] draws: the
    quadrilaterals come strip by strip, [COLS] to a strip. *)
Definition every_quad (rule : list Z -> point -> point -> Z -> Prop) : Prop :=
  forall WIDTH offsets color_list h tr tr',
    draw_strips WIDTH offsets color_list h tr = Ok (tt, tr') ->
    exists new, tr' = tr ++ new /\
      forall pen0 row col colors pen pts,
        color_list !! row = Some colors -> (col < 12)%nat ->
        painted pen0 new !! (row * 12 + col)%nat = Some (pen, pts) ->
        exists tl tr br bl, pts = [tl; tr; br; bl] /\ rule colors tl tr pen.

(** An offset table on which a strip table of pairs is drawn without
    an exception. *)
Definition example_offsets : list Z := [0; 2; 3; 10; 7; 0; 0; 0; 0; 0; 0; 0; 0].

Definition pan_colors : list (list Z) := [[2; 3]; [4; 5]; [6; 7]].

(** The angle and the weight of column boundary [i], in closed form. *)
Definition angle (i : nat) : Q :=
  (inject_Z (Z.of_nat i) * (FOUR_PI / 13))%Q.

Definition weight (i : nat) : Q :=
  match i with
  | O => 0
  | S j => Qmin 1 (inject_Z (Z.of_nat j) / 12 + (2 # 10))
  end%Q.

(** The pairs of [samples], evaluated: the generator has added its
    step [i] times for the [i]-th pair. *)
Definition samples_value : list (Q * Q) := Eval vm_compute in samples.

(** [round(r)]: to the nearest integer, a half to the even one. *)
Definition py_round (r : R) : Z :=
  let n := Int_part r in
  let f := frac_part r in
  if Rlt_dec f (1 / 2) then n
  else if Rlt_dec (1 / 2) f then n + 1
  else if Z.even n then n else n + 1.

(** The weight, the angle and the offset of boundary [i] in the words
    of the specification: [w_0 = 0], [w_i = min(1, i / COLS + 0.2)],
    [angle_i = i * 4 * pi / COLS],
    [offset_i = round(15 * w_i * sin(tick / 200 + angle_i))]. *)
Definition spec_weight (i : nat) : R :=
  match i with
  | O => 0
  | S _ => Rmin 1 (INR i / 12 + 2 / 10)
  end%R.

Definition spec_angle (i : nat) : R := (INR i * (4 * PI) / 12)%R.

Definition spec_offset (tick : Q) (i : nat) : Z :=
  py_round (15 * spec_weight i * sin (Q2R tick / 200 + spec_angle i)).

Definition spec_offsets_claim : Prop :=
  forall (tick : Q) (i : nat),
    (i <= 12)%nat -> col_offsets tick !! i = Some (spec_offset tick i).

(** ** The overlay: centred text, the QR code and the frame rate *)

(** The calls that the overlay functions make on [display], in order. *)
Inductive overlay_cmd : Set :=
| OSetFont (font : string)
| OSetPen (c : Z)
| OText (text : string) (x y scale spacing : Z)
| ORectangle (x y w h : Z).

Section Overlay.

(** [display.get_bounds()] *)
Variables WIDTH HEIGHT : Z.

(** [display.measure_text(text, scale, spacing)], in the font
    ["bitmap8"]. *)
Variable measure_text : string -> Z -> Z -> Z.

(** [code.get_size()] and [code.get_module(x, y)] of the QR code
    library. *)
Variable get_size : QRCode -> Z * Z.
Variable get_module : QRCode -> Z -> Z -> bool.

(** [text_centered(text, x, y, scale, shadow)] *)
Definition text_centered (text : string) (x y scale shadow : Z)
  : list overlay_cmd :=
  let text_width := measure_text text scale 1 in
  let text_x := x - text_width / 2 in
  let text_y := y - (8 * scale) / 2 in
  [ OSetFont "bitmap8";
    OSetPen 0;
    OText text (text_x + shadow) (text_y + shadow) scale 1;
    OSetPen 1;
    OText text text_x text_y scale 1 ].

(** The rectangle of the module in column [x] and row [y], when it is
    set. *)
Definition module_rect (code : QRCode) (left top dot_size x y : Z)
  : list overlay_cmd :=
  if get_module code x y then
    [ORectangle (left + x * dot_size) (top + y * dot_size) dot_size dot_size]
  else [].

(** [qr_code(code, fg, bg, width)] *)
Definition qr_code (code : QRCode) (fg bg width : Z)
  : result (list overlay_cmd) :=
  let '(w, h) := get_size code in
  match py_floordiv width w with
  | Raise e => Raise e
  | Ok dot_size =>
      let left := WIDTH / 2 - (dot_size * w) / 2 in
      let top := HEIGHT / 2 - (dot_size * h) / 2 in
      Ok ([ OSetPen fg;
            ORectangle left top (dot_size * w) (dot_size * h);
            OSetPen bg ] ++
          flat_map (fun x =>
            flat_map (fun y => module_rect code left top dot_size x y)
                     (range (Z.to_nat h)))
            (range (Z.to_nat w)))
  end.

End Overlay.

(** [fps = 1000 // (now - prev)], computed when the frame rate is
    shown. *)
Definition frame_rate (now prev : Z) : result Z :=
  py_floordiv 1000 (now - prev).

(** ** Runs of the main loop *)

(** The iterations of the loop for a list of readings, one per
    iteration. *)
Fixpoint run_loop (WIDTH : Z) (s : state) (readings : list inputs)
  : M state :=
  match readings with
  | [] => ret s
  | i :: readings' => s' <- iteration WIDTH s i ;; run_loop WIDTH s' readings'
  end.

(** ** The whole loop body, with the overlay *)

(** What [display.measure_text] and [display.text] take as text: a
    string; anything else raises [TypeError]. *)
Definition as_text (v : json) : result string :=
  match v with
  | JStr s => Ok s
  | _ => Raise TypeError
  end.

(** What one pass draws over the flag: the calls of [qr_code] or of
    the two [text_centered], and the frame rate when it is shown (as
    the text [str(fps) + " fps"] at (0, 0), in font ["bitmap6"] and
    pen 1). *)
Record overlay : Set := MkOverlay {
  badge : list overlay_cmd;
  fps : option Z
}.

(** What one pass reads: the clock at the top of the loop
    ([now = time.ticks_ms()]), then the buttons, the clock once more
    and the light sensor. *)
Record reading : Set := MkReading {
  now : Z;
  controls : inputs
}.

Section MainLoop.

(** [display.get_bounds()] and the collaborators of the overlay. *)
Variables WIDTH HEIGHT : Z.
Variable measure_text : string -> Z -> Z -> Z.
Variable get_size : QRCode -> Z * Z.
Variable get_module : QRCode -> Z -> Z -> bool.

(** [name], [subtitle] and [qr], as [load_config] returned them. *)
Variables name subtitle : json.
Variable qr : QRCode.

(** From [if show_qr:] down to [display.text(str(fps) + " fps", 0, 0)]. *)
Definition draw_overlay (s : state) (now prev : Z) : result overlay :=
  match
    (if show_qr s then
       qr_code WIDTH HEIGHT get_size get_module qr 1 0 200
     else
       match as_text name with
       | Raise e => Raise e
       | Ok n =>
           let line1 :=
             text_centered measure_text n (WIDTH / 2) (HEIGHT / 2 - 10) 10 5 in
           match as_text subtitle with
           | Raise e => Raise e
           | Ok sub =>
               Ok (line1 ++
                   text_centered measure_text sub
                     (WIDTH / 2) (HEIGHT / 2 + 40) 3 2)
           end
       end)
  with
  | Raise e => Raise e
  | Ok b =>
      if show_fps s then
        match frame_rate now prev with
        | Raise e => Raise e
        | Ok f => Ok (MkOverlay b (Some f))
        end
      else Ok (MkOverlay b None)
  end.

(** The body of [while True:], whole.  It returns the variables, the
    new [prev] and what was drawn over the flag, between the flag and
    [display.update()]. *)
Definition loop_body (s : state) (prev : Z) (r : reading)
  : M (state * Z * overlay) :=
  s' <- poll_controls s (controls r) ;;
  emit (SetPen 0) ;;;
  emit Clear ;;;
  t <- (match tick s' with
        | Some t => ret t
        | None => raise NameError
        end) ;;
  draw_flag WIDTH (inject_Z t) (strip_colors s') (strip_height s') ;;;
  o <- lift (draw_overlay s' (now r) prev) ;;
  emit Update ;;;
  update_backlight (controls r) ;;;
  ret (s', now r, o).

(** The first passes of the loop, one per reading. *)
Fixpoint main_loop (s : state) (prev : Z) (readings : list reading)
  : M (state * Z * list overlay) :=
  match readings with
  | [] => ret (s, prev, [])
  | r :: readings' =>
      p <- loop_body s prev r ;;
      let '(s', prev', o) := p in
      q <- main_loop s' prev' readings' ;;
      let '(s'', prev'', os) := q in
      ret (s'', prev'', o :: os)
  end.

End MainLoop.

(** The clock has moved between [prev] and every [now] that follows. *)
Fixpoint clock_moves (prev : Z) (readings : list reading) : Prop :=
  match readings with
  | [] => True
  | r :: readings' => now r <> prev /\ clock_moves (now r) readings'
  end.

(** The strip table of the state is the one of its flag. *)
Definition consistent (s : state) : Prop :=
  flag_in_range s /\
  exists name,
    py_getitem FLAGS (flag s) = Ok name /\
    forall tr, exists tr',
      swap_pallette name tr = Ok (strip_colors s, strip_height s, tr').

(** Every pen of a strip table is an entry of the palette [p]. *)
Definition pens_in_palette (cs : list (list Z)) (p : list rgb) : Prop :=
  Forall (Forall (fun c => 0 <= c < Z.of_nat (length p))) cs.

(** [b] as 0 or 1. *)
Definition Z_of_bool (b : bool) : Z := if b then 1 else 0.

(** ** The generator and the offsets in floating point *)

(** [frange] once more, on any kind of number that has the addition of
    [x += step] and the comparison of [x > stop]. *)
Section NumberGenerator.

Variable num : Type.
Variable add : num -> num -> num.
Variable gt : num -> num -> bool.

Record num_gen : Type := MkNumGen {
  n_pc : frange_pc;
  n_x : num;
  n_stop : num;
  n_step : num
}.

Definition num_frange (start stop step : num) : num_gen :=
  MkNumGen Fresh start stop step.

Definition num_next (g : num_gen) : option (num * num_gen) :=
  match n_pc g with
  | Fresh =>
      Some (n_x g, MkNumGen AtYield101 (n_x g) (n_stop g) (n_step g))
  | AtYield101 =>
      let x := add (n_x g) (n_step g) in
      Some (x, MkNumGen AtYield104 x (n_stop g) (n_step g))
  | AtYield104 =>
      if gt (n_x g) (n_stop g) then
        Some (n_stop g, MkNumGen AtYield106 (n_x g) (n_stop g) (n_step g))
      else
        let x := add (n_x g) (n_step g) in
        Some (x, MkNumGen AtYield104 x (n_stop g) (n_step g))
  | AtYield106 => None
  end.

Fixpoint num_collect (fuel : nat) (g : num_gen) : option (list num) :=
  match fuel with
  | O => None
  | S fuel' =>
      match num_next g with
      | None => Some []
      | Some (v, g') =>
          match num_collect fuel' g' with
          | Some l => Some (v :: l)
          | None => None
          end
      end
  end.

Fixpoint num_zip (g : num_gen) (l : list num) : list (num * num) :=
  match l with
  | [] => []
  | w :: l' =>
      match num_next g with
      | None => []
      | Some (v, g') => (v, w) :: num_zip g' l'
      end
  end.

End NumberGenerator.

Arguments MkNumGen {num} _ _ _ _.
Arguments n_pc {num} _.
Arguments n_x {num} _.
Arguments n_stop {num} _.
Arguments n_step {num} _.
Arguments num_frange {num} _ _ _.

(** The generator on binary64 floats, the floats of CPython. *)
Definition float_gt (a b : float) : bool := PrimFloat.ltb b a.

Definition float_collect (fuel : nat) (g : num_gen float)
  : option (list float) :=
  num_collect float PrimFloat.add float_gt fuel g.

(** [FOUR_PI] and [FOUR_PI / (COLS + 1)] on binary64: the literal
    [12.566] is the float nearest to 12566 / 1000. *)
Definition FOUR_PI_float : float := PrimFloat.div 12566 1000.

Definition step_float : float := PrimFloat.div FOUR_PI_float 13.

(** The claim of the specification about [frange], read on floats. *)
Definition frange_claim_float : Prop :=
  forall start stop step : float,
    PrimFloat.ltb 0 step = true -> PrimFloat.leb start stop = true ->
    exists fuel pre y,
      float_collect fuel (num_frange start stop step)
      = Some (pre ++ [y; stop]) /\
      float_gt y stop = true.

(** [a > b] and [min(a, b)] on the reals that floats denote. *)
Definition Rgtb (a b : R) : bool := if Rlt_dec b a then true else false.

Definition fl_min (a b : R) : R := if Rlt_dec b a then b else a.

(** Floats as the reals they denote: every operation computes the
    exact result and rounds it with [rnd]; [fsin] is [math.sin]. *)
Section FloatModel.

Variable rnd : R -> R.
Variable fsin : R -> R.

Definition fl_add (a b : R) : R := rnd (a + b).
Definition fl_mul (a b : R) : R := rnd (a * b).
Definition fl_div (a b : R) : R := rnd (a / b).

(** An [int] where a float is needed, and a decimal literal. *)
Definition fl_int (n : Z) : R := rnd (IZR n).
Definition fl_lit (q : Q) : R := rnd (Q2R q).

Definition collect_fl (fuel : nat) (g : num_gen R) : option (list R) :=
  num_collect R fl_add Rgtb fuel g.

Definition WEIGHTS_fl : list R :=
  [fl_lit 0] ++
  map (fun i => fl_min (fl_lit 1)
                  (fl_add (fl_div (fl_int i) (fl_int COLS)) (fl_lit (2 # 10))))
      (range (Z.to_nat COLS)).

Definition FOUR_PI_fl : R := fl_lit FOUR_PI.

Definition step_fl : R := fl_div FOUR_PI_fl (fl_int (COLS + 1)).

(** [frange(0, FOUR_PI, FOUR_PI / (COLS + 1))] starts from the [int] 0. *)
Definition samples_fl : list (R * R) :=
  num_zip R fl_add Rgtb (num_frange 0%R FOUR_PI_fl step_fl) WEIGHTS_fl.

(** [col_offsets] of [draw_flag], for the [int] that [time.ticks_ms()]
    returned. *)
Definition col_offsets_fl (tick : Z) : list Z :=
  let offset := fl_div (fl_int tick) (fl_int 200) in
  map (fun '(x, weight) =>
         py_int (fl_mul (fl_mul (fl_int 15) weight) (fsin (fl_add offset x))))
      samples_fl.

(** The running sum that the generator holds after [k] steps. *)
Fixpoint X_fl (k : nat) : R :=
  match k with
  | O => 0%R
  | S k' => fl_add (X_fl k') step_fl
  end.

(** The weight of boundary [i] as the code computes it. *)
Definition W_fl (i : nat) : R :=
  match i with
  | O => fl_lit 0
  | S j => fl_min (fl_lit 1)
             (fl_add (fl_div (fl_int (Z.of_nat j)) (fl_int COLS))
                     (fl_lit (2 # 10)))
  end.

(** The product that [int()] truncates, for boundary [i]. *)
Definition product_fl (tick : Z) (i : nat) : R :=
  fl_mul (fl_mul (fl_int 15) (W_fl i))
         (fsin (fl_add (fl_div (fl_int tick) (fl_int 200)) (X_fl i))).

End FloatModel.

(** A floating-point arithmetic with unit roundoff [u], up to the
    magnitude [B]: rounding moves a result [z] by at most
    [u * (|z| + 1)], small integers are floats, and [math.sin] is
    accurate to [u].  Binary64 is one, with [u] = 2^-53 (and a sine
    accurate to one unit in the last place); so is exact arithmetic,
    with [u] = 0.  At least 20 bits of precision are asked for. *)
Definition float_arith (rnd fsin : R -> R) (u B : R) : Prop :=
  (0 <= u <= / 1048576)%R /\ (4096 <= B)%R /\
  (forall z, (Rabs z <= B)%R ->
             (Rabs (rnd z - z) <= u * (Rabs z + 1))%R) /\
  (forall n : Z, -4096 <= n <= 4096 -> rnd (IZR n) = IZR n) /\
  (forall a, (Rabs a <= B)%R -> (Rabs (fsin a - sin a) <= u)%R).

(** The exact product for boundary [i]:
    [15 * w_i * sin(tick / 200 + i * 12.566 / 13)]. *)
Definition product_exact (tick : Z) (i : nat) : R :=
  (15 * Q2R (weight i) * sin (IZR tick / 200 + Q2R (angle i)))%R.

(** The claim of the specification about the offsets, read in a
    floating-point arithmetic. *)
Definition spec_offsets_claim_in (rnd fsin : R -> R) : Prop :=
  forall (tick : Z) (i : nat),
    0 <= tick -> (i <= 12)%nat ->
    col_offsets_fl rnd fsin tick !! i = Some (spec_offset (inject_Z tick) i).

(** Linear arithmetic on rationals, with the counts [inject_Z (Z.of_nat k)]
    taken as unknowns; [H] is the one hypothesis that mentions them. *)
Ltac count_lra H :=
  revert H;
  repeat match goal with
         | |- context [inject_Z (Z.of_nat ?k)] =>
             generalize (inject_Z (Z.of_nat k)); intro
         end;
  intro; lra.

(** * Properties *)

(** ** Palette and strip table *)

Lemma swap_pallette_pan (tr : trace) :
  swap_pallette "pan" tr =
  Ok ([[2; 3]; [4; 5]; [6; 7]], 60, tr ++ [SetPalette pan_palette]).
Proof. reflexivity. Qed.

Lemma swap_pallette_pride (tr : trace) :
  swap_pallette "pride" tr =
  Ok ([[2; 3]; [4; 5]; [6; 7]; [8; 9]; [10; 11]; [12; 13]], 30,
      tr ++ [SetPalette pride_palette]).
Proof. reflexivity. Qed.

Lemma swap_pallette_other (mode : string) (tr : trace) :
  mode <> "pan"%string -> mode <> "pride"%string ->
  swap_pallette mode tr = Raise UnboundLocalError.
Proof.
  intros Hpan Hpride. unfold swap_pallette.
  apply String.eqb_neq in Hpan. apply String.eqb_neq in Hpride.
  rewrite Hpan, Hpride. reflexivity.
Qed.

(** C7: the table of "pan" has 3 colour pairs and strip height 60, the
    table of "pride" has 6 colour pairs and strip height 30, and in both
    the height is 180 divided (integer division) by the number of
    strips. *)
Theorem swap_pallette_tables (tr : trace) :
  (exists cs h tr',
      swap_pallette "pan" tr = Ok (cs, h, tr') /\
      length cs = 3%nat /\ pairs cs /\ h = 60 /\
      h = 180 / Z.of_nat (length cs)) /\
  (exists cs h tr',
      swap_pallette "pride" tr = Ok (cs, h, tr') /\
      length cs = 6%nat /\ pairs cs /\ h = 30 /\
      h = 180 / Z.of_nat (length cs)).
Proof.
  split.
  - eexists _, _, _. split; [apply swap_pallette_pan|].
    repeat split. repeat constructor.
  - eexists _, _, _. split; [apply swap_pallette_pride|].
    repeat split. repeat constructor.
Qed.

(** C10: [swap_pallette] returns exactly for the modes "pan" and
    "pride"; for any other mode it raises the unbound-local error at
    its [return], and has not touched the display. *)
Theorem swap_pallette_unbound (mode : string) (tr : trace) :
  ((exists r, swap_pallette mode tr = Ok r) <->
   (mode = "pan"%string \/ mode = "pride"%string)) /\
  (mode <> "pan"%string -> mode <> "pride"%string ->
   swap_pallette mode tr = Raise UnboundLocalError).
Proof.
  split; [split|].
  - intros [r Hr].
    destruct (String.eqb_spec mode "pan"); [now left|].
    destruct (String.eqb_spec mode "pride"); [now right|].
    rewrite swap_pallette_other in Hr by assumption. discriminate.
  - intros [-> | ->]; eexists; reflexivity.
  - apply swap_pallette_other.
Qed.

Lemma swap_pallette_unbound_witness :
  swap_pallette "trans" [] = Raise UnboundLocalError.
Proof.
  apply (proj2 (swap_pallette_unbound "trans" [])); discriminate.
Defined.

(** ** Configuration *)

Lemma index_from_absent (l : list string) (v : json) (i : Z) :
  (forall s, In s l -> v <> JStr s) ->
  index_from l v i = Raise ValueError.
Proof.
  revert i. induction l as [|s l IH]; intros i Hv; simpl.
  - reflexivity.
  - destruct v as [| | |t| |]; simpl;
      try (apply IH; intros; apply Hv; now right).
    destruct (String.eqb_spec t s) as [->|_].
    + exfalso. apply (Hv s); [now left|reflexivity].
    + apply IH. intros; apply Hv; now right.
Qed.

(** C5: every absent field of the parsed configuration gets its
    default (flag 0, title "Lorem", subtitle "Ipsum edit", QR text
    "https://example.com"); a flag name that is not in [FLAGS] gives
    flag 0; the file [{"title": "X"}] gives the title "X" and the
    three other defaults. *)
Theorem load_config_defaults (config : gmap string json) :
  let '(flag, title, subtitle, code) := load_config config in
  (config !! "default_flag"%string = None -> flag = 0) /\
  (config !! "title"%string = None -> title = JStr "Lorem") /\
  (config !! "subtitle"%string = None -> subtitle = JStr "Ipsum edit") /\
  (config !! "qrcode"%string = None ->
   qr_text code = JStr "https://example.com") /\
  (forall v, config !! "default_flag"%string = Some v ->
             (forall s, In s FLAGS -> v <> JStr s) -> flag = 0) /\
  load_config {[ "title"%string := JStr "X" ]} =
    (0, JStr "X", JStr "Ipsum edit",
     {| qr_text := JStr "https://example.com" |}).
Proof.
  unfold load_config.
  repeat split.
  - intros ->. reflexivity.
  - intros ->. reflexivity.
  - intros ->. reflexivity.
  - intros ->. reflexivity.
  - intros v -> Hv. unfold list_index.
    rewrite index_from_absent by assumption. reflexivity.
Qed.

Lemma load_config_defaults_witness :
  load_config {[ "default_flag"%string := JStr "bi" ]} =
    (0, JStr "Lorem", JStr "Ipsum edit",
     {| qr_text := JStr "https://example.com" |}).
Proof.
  pose proof (load_config_defaults {[ "default_flag"%string := JStr "bi" ]})
    as H.
  destruct (load_config {[ "default_flag"%string := JStr "bi" ]})
    as [[[f t] s] [c]].
  destruct H as (_ & Ht & Hs & Hc & Hf & _).
  rewrite (Hf (JStr "bi")), Ht, Hs; simpl in Hc; try rewrite Hc;
    try reflexivity.
  intros s' [<- | [<- | []]]; discriminate.
Defined.

(** The fields that are present are taken as they are. *)
Lemma load_config_present (config : gmap string json) (t s q : json) :
  config !! "title"%string = Some t ->
  config !! "subtitle"%string = Some s ->
  config !! "qrcode"%string = Some q ->
  exists f, load_config config = (f, t, s, {| qr_text := q |}).
Proof.
  intros Ht Hs Hq. unfold load_config. rewrite Ht, Hs, Hq.
  eexists; reflexivity.
Qed.

Lemma load_config_known_flag :
  load_config {[ "default_flag"%string := JStr "pride" ]} =
    (1, JStr "Lorem", JStr "Ipsum edit",
     {| qr_text := JStr "https://example.com" |}).
Proof. reflexivity. Qed.

(** ** Backlight *)

Lemma py_min_Qmin (a b : Q) : (py_min a b == Qmin a b)%Q.
Proof.
  unfold py_min. destruct (Qle_bool a b) eqn:E.
  - apply Qle_bool_iff in E. symmetry. now apply Q.min_l.
  - assert (b <= a)%Q.
    { destruct (Qlt_le_dec b a) as [H|H]; [now apply Qlt_le_weak|].
      apply Qle_bool_iff in H. congruence. }
    symmetry. now apply Q.min_r.
Qed.

(** C8: the backlight level is [0.5 + min(0.5, raw / 7000)]; it lies
    between 0.5 and 1.0 for every sample of the (unsigned) sensor, and
    is 0.5 at 0, 1.0 at 7000 and 1.0 at 14000.  The level is what the
    iteration passes to the display. *)
Theorem backlight_level_range (raw : Z) :
  0 <= raw ->
  (backlight_level raw == (1 # 2) + Qmin (1 # 2) (inject_Z raw / 7000))%Q /\
  ((1 # 2) <= backlight_level raw)%Q /\
  (backlight_level raw <= 1)%Q /\
  (backlight_level 0 == 1 # 2)%Q /\
  (backlight_level 7000 == 1)%Q /\
  (backlight_level 14000 == 1)%Q /\
  (forall i tr, lux_u16 i = raw ->
     update_backlight i tr =
     Ok (tt, tr ++ [SetBacklight (backlight_level raw)])).
Proof.
  intros Hraw.
  assert (Hmin : (backlight_level raw ==
                  (1 # 2) + Qmin (1 # 2) (inject_Z raw / 7000))%Q).
  { unfold backlight_level. now rewrite py_min_Qmin. }
  assert (Hq : (0 <= inject_Z raw / 7000)%Q).
  { apply Qle_shift_div_l; [reflexivity|].
    rewrite Qmult_0_l. change 0%Q with (inject_Z 0).
    now rewrite <- Zle_Qle. }
  split; [exact Hmin|].
  split; [|split].
  - rewrite Hmin.
    assert (0 <= Qmin (1 # 2) (inject_Z raw / 7000))%Q
      by (apply Q.min_glb; [discriminate|exact Hq]).
    lra.
  - rewrite Hmin.
    pose proof (Q.le_min_l (1 # 2) (inject_Z raw / 7000)).
    lra.
  - repeat split; try reflexivity.
    intros i tr <-. reflexivity.
Qed.

Lemma backlight_level_range_witness :
  ((1 # 2) <= backlight_level 1000)%Q /\ (backlight_level 1000 <= 1)%Q.
Proof.
  pose proof (backlight_level_range 1000 ltac:(lia)) as H.
  split; apply H.
Defined.

(** Below 3500 the level follows the sample, from 3500 on it is 1. *)
Lemma backlight_level_linear (raw : Z) :
  raw < 3500 -> (backlight_level raw == (1 # 2) + inject_Z raw / 7000)%Q.
Proof.
  intros H. unfold backlight_level. rewrite py_min_Qmin.
  rewrite Q.min_r; [reflexivity|].
  apply Qle_shift_div_r; [reflexivity|].
  unfold Qle; simpl. lia.
Qed.

Lemma backlight_level_clamped (raw : Z) :
  3500 <= raw -> (backlight_level raw == 1)%Q.
Proof.
  intros H. unfold backlight_level. rewrite py_min_Qmin.
  rewrite Q.min_l; [reflexivity|].
  apply Qle_shift_div_l; [reflexivity|].
  unfold Qle; simpl. lia.
Qed.

(** ** Buttons, mode and clock *)

Lemma press_up_ok (s : state) (tr : trace) :
  0 <= flag s < len_FLAGS ->
  exists s' tr', press_up s tr = Ok (s', tr') /\
    flag s' = (if flag s =? len_FLAGS - 1 then 0 else flag s + 1) /\
    mode s' = mode s /\ tick s' = tick s /\
    show_fps s' = show_fps s /\ show_qr s' = show_qr s.
Proof.
  unfold len_FLAGS; simpl. intros H.
  assert (Hf : flag s = 0 \/ flag s = 1) by lia.
  unfold press_up, len_FLAGS.
  destruct Hf as [-> | ->]; eexists _, _; (split; [reflexivity|]);
    repeat split.
Qed.

Lemma press_down_ok (s : state) (tr : trace) :
  0 <= flag s < len_FLAGS ->
  exists s' tr', press_down s tr = Ok (s', tr') /\
    flag s' = (if flag s =? 0 then len_FLAGS - 1 else flag s - 1) /\
    mode s' = mode s /\ tick s' = tick s /\
    show_fps s' = show_fps s /\ show_qr s' = show_qr s.
Proof.
  unfold len_FLAGS; simpl. intros H.
  assert (Hf : flag s = 0 \/ flag s = 1) by lia.
  unfold press_down, len_FLAGS.
  destruct Hf as [-> | ->]; eexists _, _; (split; [reflexivity|]);
    repeat split.
Qed.

Lemma startup_in_range (config : gmap string json) (tr : trace) :
  exists s tr', startup config tr = Ok (s, tr') /\ flag_in_range s /\
                mode s = Run /\ tick s = None.
Proof.
  unfold startup, load_config.
  destruct (config !! "default_flag"%string) as [v|].
  - unfold list_index; simpl.
    destruct (json_is_str v "pan");
      [eexists _, _; split; [reflexivity|]; repeat split; simpl; lia|].
    destruct (json_is_str v "pride");
      eexists _, _; (split; [reflexivity|]); repeat split; simpl; lia.
  - eexists _, _; split; [reflexivity|]. repeat split; simpl; lia.
Qed.

Lemma poll_controls_ok (s : state) (i : inputs) (tr : trace) :
  flag_in_range s ->
  exists s' tr', poll_controls s i tr = Ok (s', tr') /\ flag_in_range s'.
Proof.
  intros Hs. unfold poll_controls, bind.
  assert (H1 : exists s1 tr1,
             (if button_up i then press_up s else ret s) tr = Ok (s1, tr1) /\
             flag_in_range s1).
  { destruct (button_up i).
    - destruct (press_up_ok s tr Hs) as (s1 & tr1 & E & Hf & _).
      exists s1, tr1. split; [exact E|]. unfold flag_in_range in *.
      rewrite Hf. destruct (flag s =? len_FLAGS - 1) eqn:Eb; lia.
    - exists s, tr. split; [reflexivity|assumption]. }
  destruct H1 as (s1 & tr1 & -> & Hs1).
  assert (H2 : exists s2 tr2,
             (if button_down i then press_down s1 else ret s1) tr1
             = Ok (s2, tr2) /\ flag_in_range s2).
  { destruct (button_down i).
    - destruct (press_down_ok s1 tr1 Hs1) as (s2 & tr2 & E & Hf & _).
      exists s2, tr2. split; [exact E|]. unfold flag_in_range in *.
      rewrite Hf. unfold len_FLAGS in *; simpl in *.
      destruct (flag s1 =? 0) eqn:Eb; lia.
    - exists s1, tr1. split; [reflexivity|assumption]. }
  destruct H2 as (s2 & tr2 & -> & Hs2).
  eexists _, _. split; [reflexivity|exact Hs2].
Qed.

(** [tick] is assigned only in an iteration that ends in mode
    ["run"]. *)
Lemma tick_changes_only_running (s s' : state) (i : inputs) (tr tr' : trace) :
  flag_in_range s ->
  poll_controls s i tr = Ok (s', tr') ->
  tick s' <> tick s -> mode s' = Run /\ tick s' = Some (ticks_ms i).
Proof.
  intros Hs. unfold poll_controls, bind.
  assert (H1 : exists s1 tr1,
             (if button_up i then press_up s else ret s) tr = Ok (s1, tr1) /\
             flag_in_range s1 /\ tick s1 = tick s).
  { destruct (button_up i).
    - destruct (press_up_ok s tr Hs) as (s1 & tr1 & E & Hf & _ & Ht & _).
      exists s1, tr1. split; [exact E|]. split; [|exact Ht].
      unfold flag_in_range in *.
      rewrite Hf. destruct (flag s =? len_FLAGS - 1) eqn:Eb; lia.
    - exists s, tr. repeat split; assumption || apply Hs. }
  destruct H1 as (s1 & tr1 & -> & Hs1 & Ht1).
  assert (H2 : exists s2 tr2,
             (if button_down i then press_down s1 else ret s1) tr1
             = Ok (s2, tr2) /\ tick s2 = tick s).
  { destruct (button_down i).
    - destruct (press_down_ok s1 tr1 Hs1) as (s2 & tr2 & E & _ & _ & Ht & _).
      exists s2, tr2. split; [exact E|congruence].
    - exists s1, tr1. split; [reflexivity|assumption]. }
  destruct H2 as (s2 & tr2 & -> & Ht2).
  unfold ret. intros [= <- <-]. simpl.
  destruct (mode s), (button_a i); simpl; intros Hne;
    try (split; reflexivity); congruence.
Qed.

(** C3, the behaviour of the code: in mode ["pause"], an iteration in
    which only button C is pressed leaves [tick] as it was (here 1000,
    with the clock at 1016); button C switches the frame-rate overlay. *)
Theorem paused_button_c_keeps_tick (tr : trace) :
  poll_controls (MkState 0 Pause (Some 1000) [[2; 3]; [4; 5]; [6; 7]] 60
                   false false)
                (MkInputs false false true false false 1016 0) tr =
  Ok (MkState 0 Pause (Some 1000) [[2; 3]; [4; 5]; [6; 7]] 60 true false,
      tr).
Proof. reflexivity. Qed.

(** In mode ["pause"] no button other than A has an effect on [tick]
    or on the mode. *)
Lemma paused_tick_frozen (s s' : state) (i : inputs) (tr tr' : trace) :
  flag_in_range s -> mode s = Pause -> button_a i = false ->
  poll_controls s i tr = Ok (s', tr') ->
  tick s' = tick s /\ mode s' = Pause.
Proof.
  intros Hs Hm Ha H.
  destruct (option_eq_dec (tick s') (tick s)) as [E|E].
  - split; [exact E|].
    revert H. unfold poll_controls, bind, ret.
    destruct ((if button_up i then press_up s else _) tr) as [[s1 tr1]|];
      [|discriminate].
    destruct ((if button_down i then press_down s1 else _) tr1)
      as [[s2 tr2]|]; [|discriminate].
    intros [= <- <-]. simpl. now rewrite Hm, Ha.
  - destruct (tick_changes_only_running s s' i tr tr' Hs H E) as [Hr _].
    revert H Hr. unfold poll_controls, bind, ret.
    destruct ((if button_up i then press_up s else _) tr) as [[s1 tr1]|];
      [|discriminate].
    destruct ((if button_down i then press_down s1 else _) tr1)
      as [[s2 tr2]|]; [|discriminate].
    intros [= <- <-]. simpl. rewrite Hm, Ha. discriminate.
Qed.

(** [tick] is first assigned in an iteration that ends in mode
    ["run"]: when button A is pressed in the very first iteration,
    [draw_flag] is called with [tick] unassigned. *)
Lemma first_iteration_paused (WIDTH : Z) (config : gmap string json)
    (s : state) (i : inputs) (tr tr' : trace) :
  startup config tr = Ok (s, tr') ->
  button_a i = true -> button_up i = false -> button_down i = false ->
  iteration WIDTH s i tr' = Raise NameError.
Proof.
  intros Hs Ha Hu Hd.
  destruct (startup_in_range config tr) as (s0 & tr0 & E & _ & Hm & Ht).
  rewrite E in Hs. injection Hs as <- <-.
  unfold iteration, poll_controls, bind, ret, emit, raise.
  rewrite Ha, Hu, Hd, Hm. cbn [tick]. rewrite Ht. reflexivity.
Qed.

(** ** Cycling through the flags *)

(** C6: "next" ([button_up]) on the last index gives index 0,
    "previous" ([button_down]) on index 0 gives the last index, and
    every press installs the palette and strip table of the variant it
    arrives at. *)
Theorem flag_cycling_wraps (s : state) (tr : trace) :
  flag_in_range s ->
  (exists s' tr', press_up s tr = Ok (s', tr') /\
     (flag s = len_FLAGS - 1 -> flag s' = 0) /\
     (flag s <> len_FLAGS - 1 -> flag s' = flag s + 1) /\
     refreshed s' tr tr') /\
  (exists s' tr', press_down s tr = Ok (s', tr') /\
     (flag s = 0 -> flag s' = len_FLAGS - 1) /\
     (flag s <> 0 -> flag s' = flag s - 1) /\
     refreshed s' tr tr').
Proof.
  unfold flag_in_range, len_FLAGS; simpl. intros H.
  assert (Hf : flag s = 0 \/ flag s = 1) by lia.
  unfold press_up, press_down, refreshed, len_FLAGS.
  destruct Hf as [E | E]; rewrite E; simpl; split;
    eexists _, _; (split; [reflexivity|]); simpl;
    (split; [lia|]); (split; [lia|]);
    eexists _, _; (split; [reflexivity|]); split; reflexivity.
Qed.

Lemma flag_cycling_wraps_witness :
  exists s' tr',
    press_up (MkState 1 Run None [] 0 false false) [] = Ok (s', tr') /\
    flag s' = 0 /\
    strip_colors s' = [[2; 3]; [4; 5]; [6; 7]] /\ strip_height s' = 60 /\
    tr' = [SetPalette pan_palette].
Proof.
  destruct (flag_cycling_wraps (MkState 1 Run None [] 0 false false) [])
    as [(s' & tr' & E & Hlast & _ & _) _].
  - unfold flag_in_range, len_FLAGS; simpl; lia.
  - exists s', tr'. split; [exact E|].
    split; [apply Hlast; reflexivity|].
    revert E. unfold press_up. simpl. intros [= <- <-]. repeat split.
Defined.

(** An iteration in which exactly one of the two buttons is pressed
    performs that press. *)
Lemma poll_controls_one_press (s : state) (i : inputs) (tr : trace) :
  flag_in_range s -> button_up i <> button_down i ->
  exists s1 s' tr',
    (if button_up i then press_up s else press_down s) tr = Ok (s1, tr') /\
    poll_controls s i tr = Ok (s', tr') /\
    flag s' = flag s1 /\ strip_colors s' = strip_colors s1 /\
    strip_height s' = strip_height s1.
Proof.
  intros Hs Hne. unfold poll_controls, bind.
  destruct (button_up i) eqn:Eu, (button_down i) eqn:Ed; try congruence.
  - destruct (press_up_ok s tr Hs) as (s1 & tr1 & E & _).
    rewrite E. eexists s1, _, tr1. repeat split.
  - destruct (press_down_ok s tr Hs) as (s1 & tr1 & E & _).
    unfold ret at 1. rewrite E. eexists s1, _, tr1. repeat split.
Qed.

Lemma samples_eq : samples = samples_value.
Proof. vm_compute. reflexivity. Qed.

(** ** The flag renderer: which pen fills a quadrilateral *)

Lemma painted_quads (pen : Z) (qs : list (Z * list point)) :
  painted pen (flat_map quad_cmds qs) = qs.
Proof.
  revert pen. induction qs as [|[c pts] qs IH]; intros pen; simpl.
  - reflexivity.
  - now rewrite IH.
Qed.

Section RendererFacts.

Variable WIDTH : Z.
Variable offsets : list Z.
Variable height_per_strip : Z.

Lemma draw_quad_inv (row : Z) (colors : list Z) (col : Z)
    (tr tr' : trace) (u : unit) :
  draw_quad WIDTH offsets height_per_strip row colors col tr = Ok (u, tr') ->
  exists q, quad_of WIDTH offsets height_per_strip row colors col q /\
             tr' = tr ++ quad_cmds q.
Proof.
  unfold draw_quad, bind, lift, emit, ret.
  destruct (py_getitem offsets col) as [o0|] eqn:E0; [|discriminate].
  destruct (py_getitem offsets (col + 1)) as [o1|] eqn:E1; [|discriminate].
  cbn [fst snd].
  destruct (_ <? -2) eqn:Em.
  - destruct (py_getitem colors 1) as [c|] eqn:Ec; [|discriminate].
    intros [= _ <-]. eexists (c, _). split.
    + exists o0, o1. cbn [fst snd]. rewrite Em.
      repeat split; assumption.
    + unfold quad_cmds; cbn [fst snd]. now rewrite <- app_assoc.
  - destruct (py_getitem colors 0) as [c|] eqn:Ec; [|discriminate].
    intros [= _ <-]. eexists (c, _). split.
    + exists o0, o1. cbn [fst snd]. rewrite Em.
      repeat split; assumption.
    + unfold quad_cmds; cbn [fst snd]. now rewrite <- app_assoc.
Qed.

Lemma draw_row_inv (row : Z) (colors : list Z) (cols : list Z)
    (tr tr' : trace) (u : unit) :
  for_each cols (draw_quad WIDTH offsets height_per_strip row colors) tr
  = Ok (u, tr') ->
  exists qs, Forall2 (quad_of WIDTH offsets height_per_strip row colors)
                     cols qs /\
             tr' = tr ++ flat_map quad_cmds qs.
Proof.
  revert tr. induction cols as [|col cols IH]; intros tr; simpl.
  - unfold ret. intros [= _ <-]. exists []. split; [constructor|].
    simpl. now rewrite app_nil_r.
  - unfold bind at 1.
    destruct (draw_quad _ _ _ _ _ col tr) as [[u1 tr1]|] eqn:E;
      [|discriminate].
    intros H. apply draw_quad_inv in E as (q & Hq & ->).
    apply IH in H as (qs & Hqs & ->).
    exists (q :: qs). split; [now constructor|].
    simpl. now rewrite <- app_assoc.
Qed.

Lemma draw_rows_inv (color_list : list (list Z)) (r : Z)
    (tr tr' : trace) (u : unit) :
  for_each (enumerate_from r color_list) (fun '(row, colors) =>
    for_each (range (Z.to_nat COLS)) (fun col =>
      draw_quad WIDTH offsets height_per_strip row colors col)) tr
  = Ok (u, tr') ->
  exists qss,
    Forall2 (fun rc qs =>
               Forall2 (quad_of WIDTH offsets height_per_strip (fst rc) (snd rc))
                       (range (Z.to_nat COLS)) qs)
            (enumerate_from r color_list) qss /\
    tr' = tr ++ flat_map quad_cmds (concat qss).
Proof.
  revert r tr. induction color_list as [|colors cl IH]; intros r tr;
    cbn [enumerate_from for_each].
  - unfold ret. intros [= _ <-]. exists []. split; [constructor|].
    simpl. now rewrite app_nil_r.
  - unfold bind at 1.
    destruct (for_each (range (Z.to_nat COLS))
                (draw_quad WIDTH offsets height_per_strip r colors) tr)
      as [[u1 tr1]|] eqn:E; [|discriminate].
    intros H. apply draw_row_inv in E as (qs & Hqs & ->).
    apply IH in H as (qss & Hqss & ->).
    exists (qs :: qss). split; [now constructor|].
    simpl. now rewrite flat_map_app, <- app_assoc.
Qed.

End RendererFacts.

Lemma concat_lookup_block {A} (n : nat) (xss : list (list A)) (r c : nat)
    (xs : list A) :
  Forall (fun xs => length xs = n) xss -> (c < n)%nat ->
  xss !! r = Some xs ->
  concat xss !! (r * n + c)%nat = xs !! c.
Proof.
  intros Hlen Hc. revert r.
  induction Hlen as [|ys xss Hys _ IH]; intros r; simpl.
  - now destruct r.
  - destruct r as [|r]; simpl.
    + intros [= ->]. apply lookup_app_l. lia.
    + intros Hr. rewrite lookup_app_r by lia.
      replace (n + r * n + c - length ys)%nat with (r * n + c)%nat by lia.
      now apply IH.
Qed.

Lemma enumerate_from_lookup {A} (l : list A) (r : Z) (k : nat) (a : A) :
  l !! k = Some a -> enumerate_from r l !! k = Some (r + Z.of_nat k, a).
Proof.
  revert r k. induction l as [|b l IH]; intros r k; [now destruct k|].
  destruct k as [|k]; simpl.
  - intros [= ->]. do 2 f_equal. lia.
  - intros H. rewrite (IH (r + 1) k H). do 2 f_equal. lia.
Qed.

Lemma enumerate_from_length {A} (l : list A) (r : Z) :
  length (enumerate_from r l) = length l.
Proof. revert r. induction l; intros r; simpl; [|rewrite IHl]; reflexivity. Qed.

Lemma range_lookup (n k : nat) :
  (k < n)%nat -> range n !! k = Some (Z.of_nat k).
Proof.
  intros H. unfold range. rewrite list_lookup_fmap.
  now rewrite lookup_seq_lt.
Qed.

(** C1, as the code has it: every quadrilateral of strip [row] and
    column [col] has its top corners at the heights
    [row * h + offsets[col] + 30] and [row * h + offsets[col + 1] + 30],
    and is filled with the shade of the strip's pair exactly when the
    top-left height minus the top-right height is below -2 (the right
    corner is more than 2 units lower on the screen), with the main
    colour otherwise.  [COLS] quadrilaterals are drawn for each strip. *)
Theorem draw_strips_pen (WIDTH : Z) (offsets : list Z)
    (color_list : list (list Z)) (h : Z) (tr tr' : trace) :
  draw_strips WIDTH offsets color_list h tr = Ok (tt, tr') ->
  exists new, tr' = tr ++ new /\
    (forall pen0,
        length (painted pen0 new) = (length color_list * 12)%nat) /\
    forall pen0 row col colors pen pts,
      color_list !! row = Some colors -> (col < 12)%nat ->
      painted pen0 new !! (row * 12 + col)%nat = Some (pen, pts) ->
      exists tl tr br bl o0 o1,
        pts = [tl; tr; br; bl] /\
        py_getitem offsets (Z.of_nat col) = Ok o0 /\
        py_getitem offsets (Z.of_nat col + 1) = Ok o1 /\
        snd tl = Z.of_nat row * h + o0 + 30 /\
        snd tr = Z.of_nat row * h + o1 + 30 /\
        code_pen_rule colors tl tr pen.
Proof.
  unfold draw_strips, enumerate. intros H.
  apply draw_rows_inv in H as (qss & Hqss & ->).
  exists (flat_map quad_cmds (concat qss)). split; [reflexivity|].
  assert (Hlen : Forall (fun qs => length qs = 12%nat) qss).
  { clear -Hqss. induction Hqss as [|rc qs l l' Hq _ IH]; constructor; auto.
    apply Forall2_length in Hq. rewrite <- Hq. reflexivity. }
  split.
  - intros pen0. rewrite painted_quads.
    apply Forall2_length in Hqss. rewrite enumerate_from_length in Hqss.
    rewrite Hqss. clear -Hlen.
    induction Hlen as [|qs qss Hq _ IH]; simpl; [reflexivity|].
    rewrite length_app, IH, Hq. reflexivity.
  - intros pen0 row col colors pen pts Hrow Hcol.
    pose proof (enumerate_from_lookup _ 0 _ _ Hrow) as Hen.
    destruct (Forall2_lookup_l _ _ _ _ _ Hqss Hen) as (qs & Eqs & Hrowq).
    cbn [fst snd] in Hrowq.
    rewrite painted_quads.
    rewrite (concat_lookup_block 12 qss row col qs Hlen Hcol Eqs).
    intros Hq.
    pose proof (range_lookup 12 col Hcol) as Hrng.
    pose proof (Forall2_lookup_lr _ _ _ _ _ _ Hrowq Hrng Hq)
      as (o0 & o1 & E0 & E1 & Hpts & Hpen).
    cbn [fst snd] in Hpts, Hpen.
    eexists _, _, _, _, o0, o1. split; [exact Hpts|].
    split; [exact E0|]. split; [exact E1|].
    cbn [fst snd]. split; [lia|]. split; [lia|].
    unfold code_pen_rule; cbn [fst snd].
    split; intros Hm.
    + destruct (_ <? -2) eqn:Em in Hpen; [exact Hpen|]. lia.
    + destruct (_ <? -2) eqn:Em in Hpen; [|exact Hpen]. lia.
Qed.

Lemma example_painted :
  exists tr',
    draw_strips 320 example_offsets pan_colors 60 [] = Ok (tt, tr') /\
    painted 0 tr' !! 15%nat =
      Some (4, [(78, 100); (104, 97); (104, 157); (78, 160)]) /\
    painted 0 tr' !! 16%nat =
      Some (4, [(104, 97); (130, 90); (130, 150); (104, 157)]) /\
    painted 0 tr' !! 14%nat =
      Some (5, [(52, 93); (78, 100); (78, 160); (52, 153)]).
Proof. eexists. split; [vm_compute; reflexivity|]. repeat split. Qed.

(** *** The renderer does not raise on a table of pairs *)

Lemma py_getitem_ok {A} (l : list A) (i : Z) :
  0 <= i < Z.of_nat (length l) -> exists a, py_getitem l i = Ok a.
Proof.
  intros Hi. unfold py_getitem.
  destruct (i <? 0) eqn:E0; [lia|].
  replace (i <? 0) with false by lia.
  replace (Z.of_nat (length l) <=? i) with false by lia.
  cbn [orb].
  destruct (l !! Z.to_nat i) as [a|] eqn:E; [now exists a|].
  apply lookup_ge_None in E. lia.
Qed.

Lemma for_each_ok {A} (l : list A) (body : A -> M unit) :
  (forall a tr, In a l -> exists tr', body a tr = Ok (tt, tr')) ->
  forall tr, exists tr', for_each l body tr = Ok (tt, tr').
Proof.
  induction l as [|a l IH]; intros Hbody tr; cbn [for_each].
  - now exists tr.
  - destruct (Hbody a tr) as [tr1 E1]; [now left|].
    destruct (IH (fun b t Hb => Hbody b t (or_intror Hb)) tr1) as [tr2 E2].
    exists tr2. unfold bind. now rewrite E1.
Qed.

Lemma draw_quad_ok (WIDTH : Z) (offsets : list Z) (h row : Z)
    (colors : list Z) (col : Z) (tr : trace) :
  length offsets = 13%nat -> length colors = 2%nat -> 0 <= col < 12 ->
  exists tr', draw_quad WIDTH offsets h row colors col tr = Ok (tt, tr').
Proof.
  intros Ho Hc Hcol. unfold draw_quad, bind, lift, emit.
  destruct (py_getitem_ok offsets col) as [o0 ->]; [lia|].
  destruct (py_getitem_ok offsets (col + 1)) as [o1 ->]; [lia|].
  destruct (py_getitem_ok colors 0) as [c0 E0]; [lia|].
  destruct (py_getitem_ok colors 1) as [c1 E1]; [lia|].
  destruct (_ <? -2); [rewrite E1|rewrite E0]; eexists; reflexivity.
Qed.

Lemma draw_strips_ok (WIDTH : Z) (offsets : list Z)
    (color_list : list (list Z)) (h : Z) (tr : trace) :
  length offsets = 13%nat -> pairs color_list ->
  exists tr', draw_strips WIDTH offsets color_list h tr = Ok (tt, tr').
Proof.
  intros Ho Hp. unfold draw_strips, enumerate.
  apply for_each_ok. intros [row colors] tr1 Hin.
  assert (Hc : length colors = 2%nat).
  { clear -Hp Hin. revert Hin. generalize 0.
    induction Hp as [|c cl Hc _ IH]; intros r; cbn [enumerate_from In].
    - intros [].
    - intros [[= _ <-] | Hin]; [exact Hc|]. exact (IH _ Hin). }
  apply for_each_ok. intros col tr2 Hcol.
  apply draw_quad_ok; [assumption..|].
  unfold range in Hcol. apply in_map_iff in Hcol as (k & <- & Hk).
  apply in_seq in Hk. change (Z.to_nat COLS) with 12%nat in Hk. lia.
Qed.

Lemma draw_flag_ok (WIDTH : Z) (tick : Q) (color_list : list (list Z))
    (h : Z) (tr : trace) :
  pairs color_list ->
  exists tr', draw_flag WIDTH tick color_list h tr = Ok (tt, tr').
Proof.
  intros Hp. unfold draw_flag. apply draw_strips_ok; [|exact Hp].
  unfold col_offsets. rewrite length_map, samples_eq. reflexivity.
Qed.

Lemma draw_strips_pen_witness :
  exists tr',
    draw_strips 320 example_offsets pan_colors 60 [] = Ok (tt, tr') /\
    length (painted 0 tr') = 36%nat.
Proof.
  assert (E : exists tr',
             draw_strips 320 example_offsets pan_colors 60 [] = Ok (tt, tr'))
    by (eexists; vm_compute; reflexivity).
  destruct E as [tr' E]. exists tr'. split; [exact E|].
  destruct (draw_strips_pen 320 example_offsets pan_colors 60 [] tr' E)
    as (new & -> & Hlen & _).
  exact (Hlen 0).
Defined.

(** C1, as the specification words it, fails: in the second strip of
    the "pan" table the quadrilateral with top-left height 100 and
    top-right height 97 is filled with the main colour 4, not with the
    shade 5. *)
Lemma spec_pen_rule_fails :
  (exists tr',
      draw_strips 320 example_offsets pan_colors 60 [] = Ok (tt, tr') /\
      painted 0 tr' !! 15%nat =
        Some (4, [(78, 100); (104, 97); (104, 157); (78, 160)]) /\
      py_getitem [4; 5] 1 = Ok 5 /\
      ~ spec_pen_rule [4; 5] (78, 100) (104, 97) 4) /\
  ~ every_quad spec_pen_rule.
Proof.
  destruct example_painted as (tr' & E & H15 & _).
  split.
  - exists tr'. repeat split; try assumption.
    intros [Hshade _]. cbn [snd] in Hshade.
    specialize (Hshade ltac:(lia)). discriminate.
  - intros Hspec.
    destruct (Hspec 320 example_offsets pan_colors 60 [] tr' E)
      as (new & Hnew & Hq).
    simpl in Hnew. subst new.
    destruct (Hq 0 1%nat 3%nat [4; 5] 4 _ eq_refl ltac:(lia) H15)
      as (tl & tr_ & br & bl & [= <- <- <- <-] & Hshade & _).
    cbn [snd] in Hshade. specialize (Hshade ltac:(lia)). discriminate.
Qed.

(** ** The generator [frange] stops *)

Lemma collect_more_fuel (fuel fuel' : nat) (g : frange_gen) (l : list Q) :
  collect fuel g = Some l -> (fuel <= fuel')%nat -> collect fuel' g = Some l.
Proof.
  revert fuel' g l. induction fuel as [|fuel IH]; intros fuel' g l; simpl.
  - discriminate.
  - intros H Hle. destruct fuel' as [|fuel']; [lia|]. simpl.
    destruct (next g) as [[v g']|]; [|exact H].
    destruct (collect fuel g') as [l'|] eqn:E; [|discriminate].
    rewrite (IH fuel' g' l' E) by lia. exact H.
Qed.

Lemma Qgtb_true (a b : Q) : Qgtb a b = true <-> (b < a)%Q.
Proof.
  unfold Qgtb. rewrite negb_true_iff. split.
  - intros H. apply Qnot_le_lt. intros Hle.
    apply Qle_bool_iff in Hle. congruence.
  - intros H. destruct (Qle_bool a b) eqn:E; [|reflexivity].
    apply Qle_bool_iff in E. exfalso. exact (Qlt_not_le _ _ H E).
Qed.

Section FrangeLoop.

Variables stop step : Q.

(** Parked inside the loop after [x] was yielded, with [n] more
    steps enough to pass [stop]: the generator yields finitely many
    further values, and the whole run ends with a value above [stop]
    followed by [stop]. *)
Lemma frange_loop_stops (n : nat) :
  forall x : Q,
    (stop < x + inject_Z (Z.of_nat n) * step)%Q ->
    exists fuel l pre y,
      collect fuel (MkGen AtYield104 x stop step) = Some l /\
      x :: l = pre ++ [y; stop] /\ (stop < y)%Q.
Proof.
  assert (Hexit : forall x, (stop < x)%Q ->
            exists fuel l pre y,
              collect fuel (MkGen AtYield104 x stop step) = Some l /\
              x :: l = pre ++ [y; stop] /\ (stop < y)%Q).
  { intros x Hx. exists 2%nat, [stop], [], x. simpl.
    unfold next; simpl. apply Qgtb_true in Hx as Hb. rewrite Hb.
    repeat split. exact Hx. }
  induction n as [|n IH]; intros x Hn.
  - apply Hexit. change (inject_Z (Z.of_nat 0)) with 0%Q in Hn. lra.
  - destruct (Qgtb x stop) eqn:Eb.
    + apply Hexit. now apply Qgtb_true.
    + destruct (IH (x + step)%Q) as (fuel & l & pre & y & Hc & Hl & Hy).
      { rewrite Nat2Z.inj_succ, <- Z.add_1_r, inject_Z_plus in Hn.
        change (inject_Z 1) with 1%Q in Hn.
        generalize dependent (inject_Z (Z.of_nat n)). intros k _ Hn. lra. }
      exists (S fuel), ((x + step)%Q :: l), (x :: pre), y.
      simpl. unfold next; simpl. rewrite Eb, Hc.
      repeat split; [|exact Hy]. simpl. now rewrite Hl.
Qed.

Lemma enough_steps (x : Q) :
  (0 < step)%Q ->
  exists n : nat, (stop < x + inject_Z (Z.of_nat n) * step)%Q.
Proof.
  intros Hstep.
  set (d := ((stop - x) / step)%Q).
  exists (Z.to_nat (Z.max 0 (Qfloor d + 1))).
  rewrite Z2Nat.id by lia.
  assert (Hd : (d < inject_Z (Z.max 0 (Qfloor d + 1)))%Q).
  { apply Qlt_le_trans with (inject_Z (Qfloor d + 1)).
    - apply Qlt_floor.
    - rewrite <- Zle_Qle. lia. }
  assert (Hds : (d * step == stop - x)%Q).
  { unfold d. rewrite Qmult_comm. apply Qmult_div_r.
    intros E. rewrite E in Hstep. now apply Qlt_irrefl in Hstep. }
  assert (Hlt : (d * step < inject_Z (Z.max 0 (Qfloor d + 1)) * step)%Q)
    by (apply Qmult_lt_compat_r; assumption).
  generalize dependent (inject_Z (Z.max 0 (Qfloor d + 1))).
  intros k _ Hlt. rewrite Hds in Hlt. lra.
Qed.

End FrangeLoop.

(** In exact arithmetic, with a positive step and [start <= stop],
    [frange] stops after finitely many values; the last value is
    [stop] itself, and the value before it is above [stop]. *)
Theorem frange_overshoots (start stop step : Q) :
  (0 < step)%Q -> (start <= stop)%Q ->
  exists fuel pre y,
    collect fuel (frange start stop step) = Some (pre ++ [y; stop]) /\
    (stop < y)%Q /\
    (forall fuel', (fuel <= fuel')%nat ->
       collect fuel' (frange start stop step) = Some (pre ++ [y; stop])).
Proof.
  intros Hstep _.
  destruct (enough_steps stop step (start + step)%Q Hstep) as [n Hn].
  destruct (frange_loop_stops stop step n _ Hn)
    as (fuel & l & pre & y & Hc & Hl & Hy).
  assert (E : collect (S (S fuel)) (frange start stop step)
              = Some ((start :: pre) ++ [y; stop])).
  { cbn [collect frange next g_pc g_x g_stop g_step].
    rewrite Hc. now rewrite Hl. }
  exists (S (S fuel)), (start :: pre), y.
  split; [exact E|]. split; [exact Hy|].
  intros fuel' Hle. exact (collect_more_fuel _ _ _ _ E Hle).
Qed.

Lemma frange_overshoots_witness :
  exists fuel pre y,
    collect fuel (frange 0 10 3) = Some (pre ++ [y; 10%Q]) /\ (10 < y)%Q.
Proof.
  destruct (frange_overshoots 0 10 3) as (fuel & pre & y & E & Hy & _).
  - reflexivity.
  - discriminate.
  - exists fuel, pre, y. split; assumption.
Defined.

(** The run of [frange(0, 10, 3)]. *)
Lemma frange_0_10_3 :
  collect 7 (frange 0 10 3) = Some [0; 0 + 3; 0 + 3 + 3; 0 + 3 + 3 + 3;
                                    0 + 3 + 3 + 3 + 3; 10]%Q.
Proof. reflexivity. Qed.

(** The step must be positive: with step 0 the generator never
    stops. *)
Lemma frange_zero_step_runs_on (fuel : nat) (start stop : Q) :
  (start <= stop)%Q -> collect fuel (frange start stop 0) = None.
Proof.
  intros Hle.
  assert (Hloop : forall fuel x, (x <= stop)%Q ->
            collect fuel (MkGen AtYield104 x stop 0) = None).
  { clear fuel. induction fuel as [|fuel IH]; intros x Hx; [reflexivity|].
    simpl. unfold next; simpl.
    assert (Eb : Qgtb x stop = false).
    { destruct (Qgtb x stop) eqn:E; [|reflexivity].
      apply Qgtb_true in E. exfalso. exact (Qlt_not_le _ _ E Hx). }
    rewrite Eb, IH; [reflexivity|]. lra. }
  destruct fuel as [|[|fuel]]; try reflexivity.
  cbn [collect frange next g_pc g_x g_stop g_step].
  rewrite Hloop; [reflexivity|]. lra.
Qed.

(** ** The offset table *)

(** What the generator and [WEIGHTS] pair up: boundary [i] gets the
    [i]-th multiple of [FOUR_PI / 13] and the weight of index [i]. *)
Lemma samples_closed_form (i : nat) :
  (i < 13)%nat ->
  exists x w, samples !! i = Some (x, w) /\
              (x == angle i)%Q /\ (w == weight i)%Q.
Proof.
  intros Hi. rewrite samples_eq.
  do 13 (destruct i as [|i];
         [eexists _, _; split;
          [unfold samples_value; cbn [lookup list_lookup]; reflexivity
          |split; vm_compute; reflexivity]|]).
  lia.
Qed.

Lemma samples_length : length samples = 13%nat.
Proof. rewrite samples_eq. reflexivity. Qed.

Lemma Q2R_const (q : Q) (n : Z) (d : positive) :
  (q == n # d)%Q -> Q2R q = (IZR n / IZR (Z.pos d))%R.
Proof. intros H. rewrite (Qeq_eqR _ _ H). reflexivity. Qed.

Lemma Int_part_between (r : R) (z : Z) :
  (IZR z <= r < IZR z + 1)%R -> Int_part r = z.
Proof. intros [H1 H2]. symmetry. apply Int_part_spec. lra. Qed.

Lemma py_int_between (r : R) (z : Z) :
  0 <= z -> (IZR z <= r < IZR z + 1)%R -> py_int r = z.
Proof.
  intros Hz Hr. unfold py_int.
  destruct (Rle_dec 0 r) as [_|Hn].
  - now apply Int_part_between.
  - exfalso. apply Hn. apply IZR_le in Hz. lra.
Qed.

Lemma py_int_0 : py_int 0 = 0.
Proof. apply py_int_between; simpl; [lia|lra]. Qed.

(** C4: whatever the tick, the offset table has [COLS + 1 = 13]
    entries and its first entry is 0. *)
Theorem col_offsets_length_and_pole (tick : Q) :
  length (col_offsets tick) = Z.to_nat (COLS + 1) /\
  length (col_offsets tick) = 13%nat /\
  col_offsets tick !! 0%nat = Some 0.
Proof.
  unfold col_offsets. rewrite length_map, samples_length.
  repeat split.
  rewrite list_lookup_fmap, samples_eq.
  change (samples_value !! 0%nat) with (Some (0%Q, 0%Q)).
  cbn [fmap option_fmap option_map]. f_equal.
  rewrite (Q2R_const (15 * 0) 0 1) by reflexivity.
  replace (0 / 1 * sin (Q2R (tick / 200 + 0)))%R with 0%R by lra.
  apply py_int_0.
Qed.

Lemma col_offsets_entry (tick : Q) (i : nat) (x w : Q) :
  samples !! i = Some (x, w) ->
  col_offsets tick !! i =
  Some (py_int (Q2R (15 * w) * sin (Q2R (tick / 200 + x)))).
Proof.
  intros E. unfold col_offsets. rewrite list_lookup_fmap, E. reflexivity.
Qed.

Lemma offset_term (tick x w a b : Q) :
  (x == a)%Q -> (w == b)%Q ->
  (Q2R (15 * w) * sin (Q2R (tick / 200 + x)) =
   15 * Q2R b * sin (Q2R tick / 200 + Q2R a))%R.
Proof.
  intros Hx Hw.
  rewrite Q2R_mult, (Qeq_eqR _ _ Hw), Q2R_plus, (Qeq_eqR _ _ Hx).
  unfold Qdiv. rewrite Q2R_mult.
  rewrite (Q2R_const 15 15 1), (Q2R_const (/ 200) 1 200) by reflexivity.
  f_equal; [lra | f_equal; lra].
Qed.

(** In exact arithmetic, entry [i] of the offset table is
    [15 * w_i * sin(tick / 200 + i * 12.566 / 13)] truncated towards
    zero, with [w_0 = 0] and [w_i = min(1, (i - 1) / 12 + 0.2)] for
    [i >= 1]. *)
Theorem col_offsets_closed_form (tick : Q) (i : nat) :
  (i <= 12)%nat ->
  col_offsets tick !! i =
  Some (py_int (15 * Q2R (weight i) *
                sin (Q2R tick / 200 + Q2R (angle i)))).
Proof.
  intros Hi.
  destruct (samples_closed_form i) as (x & w & E & Hx & Hw); [lia|].
  rewrite (col_offsets_entry tick i x w E).
  do 2 f_equal. now apply offset_term.
Qed.

Lemma col_offsets_closed_form_witness :
  col_offsets 0 !! 1%nat =
  Some (py_int (15 * Q2R (weight 1) * sin (Q2R 0 / 200 + Q2R (angle 1)))).
Proof. apply (col_offsets_closed_form 0 1). lia. Defined.

(** ** The offset table of the specification *)

Lemma sin_lb_poly (a : R) :
  (sin_lb a = a - a ^ 3 / 6 + a ^ 5 / 120 - a ^ 7 / 5040)%R.
Proof.
  unfold sin_lb, sin_approx, sin_term. cbn [sum_f_R0].
  replace (INR (fact (2 * 0 + 1))) with 1%R
    by (rewrite INR_IZR_INZ; f_equal).
  replace (INR (fact (2 * 1 + 1))) with 6%R
    by (rewrite INR_IZR_INZ; f_equal).
  replace (INR (fact (2 * 2 + 1))) with 120%R
    by (rewrite INR_IZR_INZ; f_equal).
  replace (INR (fact (2 * 3 + 1))) with 5040%R
    by (rewrite INR_IZR_INZ; f_equal).
  change (2 * 0 + 1)%nat with 1%nat. change (2 * 1 + 1)%nat with 3%nat.
  change (2 * 2 + 1)%nat with 5%nat. change (2 * 3 + 1)%nat with 7%nat.
  cbn [pow]. field.
Qed.

Lemma sin_ub_poly (a : R) :
  (sin_ub a =
   a - a ^ 3 / 6 + a ^ 5 / 120 - a ^ 7 / 5040 + a ^ 9 / 362880)%R.
Proof.
  unfold sin_ub, sin_approx, sin_term. cbn [sum_f_R0].
  replace (INR (fact (2 * 0 + 1))) with 1%R
    by (rewrite INR_IZR_INZ; f_equal).
  replace (INR (fact (2 * 1 + 1))) with 6%R
    by (rewrite INR_IZR_INZ; f_equal).
  replace (INR (fact (2 * 2 + 1))) with 120%R
    by (rewrite INR_IZR_INZ; f_equal).
  replace (INR (fact (2 * 3 + 1))) with 5040%R
    by (rewrite INR_IZR_INZ; f_equal).
  replace (INR (fact (2 * 4 + 1))) with 362880%R
    by (rewrite INR_IZR_INZ; f_equal; vm_compute; reflexivity).
  change (2 * 0 + 1)%nat with 1%nat. change (2 * 1 + 1)%nat with 3%nat.
  change (2 * 2 + 1)%nat with 5%nat. change (2 * 3 + 1)%nat with 7%nat.
  change (2 * 4 + 1)%nat with 9%nat.
  cbn [pow]. field.
Qed.

Lemma PI_above_3 : (3 < PI)%R.
Proof. pose proof PI2_3_2. lra. Qed.

(** [sin(3 * 12.566 / 13)] is about 0.2394. *)
Lemma sin_angle_3 : (2 / 11 <= sin (18849 / 6500) < 4 / 11)%R.
Proof.
  assert (H0 : (0 <= 18849 / 6500)%R) by lra.
  assert (H1 : (18849 / 6500 <= PI)%R) by (pose proof PI_above_3; lra).
  destruct (SIN _ H0 H1) as [Hlb Hub].
  rewrite sin_lb_poly in Hlb. rewrite sin_ub_poly in Hub.
  split; lra.
Qed.

(** At tick 0 the code gives boundary 3 the offset 1:
    [int(15 * (11 / 30) * sin(2.8998...)) = int(1.31...)]. *)
Lemma col_offsets_0_3 : col_offsets 0 !! 3%nat = Some 1.
Proof.
  destruct (samples_closed_form 3) as (x & w & E & Hx & Hw); [lia|].
  rewrite (col_offsets_entry 0 3 x w E), (offset_term 0 x w _ _ Hx Hw).
  f_equal.
  rewrite (Q2R_const (weight 3) 11 30) by (vm_compute; reflexivity).
  rewrite (Q2R_const (angle 3) 18849 6500) by (vm_compute; reflexivity).
  rewrite (Q2R_const 0 0 1) by reflexivity.
  replace (0 / 1 / 200 + 18849 / 6500)%R with (18849 / 6500)%R by lra.
  pose proof sin_angle_3 as Hs.
  apply py_int_between; [lia|]. lra.
Qed.

Lemma py_round_0 : py_round 0 = 0.
Proof.
  unfold py_round. rewrite fp_R0, (Int_part_between 0 0) by lra.
  destruct (Rlt_dec 0 (1 / 2)) as [_|H]; [reflexivity|]. exfalso. lra.
Qed.

(** At tick 0 the formula of the specification gives boundary 3 the
    offset 0: its angle is [pi]. *)
Lemma spec_offset_0_3 : spec_offset 0 3 = 0.
Proof.
  unfold spec_offset, spec_angle.
  rewrite (Q2R_const 0 0 1) by reflexivity.
  replace (INR 3) with 3%R by (cbn [INR]; lra).
  replace (0 / 1 / 200 + 3 * (4 * PI) / 12)%R with PI by lra.
  rewrite sin_PI, Rmult_0_r. apply py_round_0.
Qed.

(** In exact arithmetic the formula of the specification fails: at
    tick 0 the entry of boundary 3 is 1, the formula gives 0. *)
Lemma spec_offsets_claim_fails :
  col_offsets 0 !! 3%nat = Some 1 /\ spec_offset 0 3 = 0 /\
  ~ spec_offsets_claim.
Proof.
  split; [exact col_offsets_0_3|]. split; [exact spec_offset_0_3|].
  intros Hspec. specialize (Hspec 0%Q 3%nat ltac:(lia)).
  rewrite col_offsets_0_3, spec_offset_0_3 in Hspec. discriminate.
Qed.

(** * Further properties of the code *)

(** ** The configured flag *)

(** [index_from], the model of [list.index]: the result is the first
    position that holds the string looked for. *)
Lemma index_from_first (l : list string) (v : json) (i j : Z) :
  index_from l v i = Ok j ->
  i <= j < i + Z.of_nat (length l) /\
  exists s, v = JStr s /\ l !! Z.to_nat (j - i) = Some s /\
            forall k, (k < Z.to_nat (j - i))%nat -> l !! k <> Some s.
Proof.
  revert i. induction l as [|t l IH]; intros i; cbn [index_from].
  - discriminate.
  - destruct (json_is_str v t) eqn:E.
    + intros [= <-]. split; [cbn [length]; lia|].
      destruct v as [| | |s| |]; try discriminate. cbn in E.
      apply String.eqb_eq in E as ->.
      exists t. rewrite Z.sub_diag. repeat split. intros k Hk. cbn in Hk. lia.
    + intros H. apply IH in H as (Hj & s & -> & Hs & Hfirst).
      split; [cbn [length]; lia|].
      exists s. split; [reflexivity|].
      replace (Z.to_nat (j - i)) with (S (Z.to_nat (j - (i + 1)))) by lia.
      split; [exact Hs|].
      intros [|k] Hk; cbn.
      * cbn in E. intros [= ->]. now rewrite String.eqb_refl in E.
      * apply Hfirst. lia.
Qed.

Lemma py_getitem_lookup {A} (l : list A) (i : Z) (a : A) :
  0 <= i -> l !! Z.to_nat i = Some a -> py_getitem l i = Ok a.
Proof.
  intros Hi Ha. unfold py_getitem.
  pose proof (lookup_lt_Some _ _ _ Ha) as Hlt.
  destruct (i <? 0) eqn:E0; [lia|].
  rewrite E0. destruct (Z.of_nat (length l) <=? i) eqn:E1; [lia|].
  cbn [orb]. now rewrite Ha.
Qed.

Lemma load_config_flag_range (config : gmap string json) :
  0 <= fst (fst (fst (load_config config))) < len_FLAGS.
Proof.
  unfold load_config, len_FLAGS. cbn [fst].
  destruct (config !! "default_flag"%string) as [v|]; [|cbn; lia].
  destruct (list_index FLAGS v) as [j|e] eqn:E; [|cbn; lia].
  apply index_from_first in E as [Hj _]. lia.
Qed.

(** [load_config] always returns a flag index inside [FLAGS], and a
    configured name that is in [FLAGS] is found again under the index
    returned. *)
Theorem load_config_flag (config : gmap string json) :
  let '(flag, _, _, _) := load_config config in
  0 <= flag < len_FLAGS /\
  forall name,
    config !! "default_flag"%string = Some (JStr name) ->
    In name FLAGS -> py_getitem FLAGS flag = Ok name.
Proof.
  unfold load_config, len_FLAGS.
  destruct (config !! "default_flag"%string) as [v|].
  - destruct (list_index FLAGS v) as [j|e] eqn:E.
    + apply index_from_first in E as (Hj & s & -> & Hs & _).
      rewrite Z.sub_0_r in Hs. split; [lia|].
      intros name [= <-] _. apply py_getitem_lookup; [lia|exact Hs].
    + split; [cbn; lia|].
      intros name [= ->] Hin. exfalso. unfold list_index in E. cbn in E.
      destruct Hin as [<- | [<- | []]]; cbn in E; discriminate.
  - split; [cbn; lia|]. intros name H. discriminate.
Qed.

Lemma load_config_flag_witness :
  py_getitem FLAGS
    (fst (fst (fst (load_config {[ "default_flag"%string := JStr "pride" ]}))))
  = Ok "pride"%string.
Proof.
  pose proof (load_config_flag {[ "default_flag"%string := JStr "pride" ]})
    as H.
  destruct (load_config {[ "default_flag"%string := JStr "pride" ]})
    as [[[f t] s] c].
  destruct H as [_ H]. cbn [fst]. apply H.
  - reflexivity.
  - right. now left.
Defined.

(** ** Palette and pens *)

(** Whenever [swap_pallette] returns, it has sent exactly one palette
    to the display; the palette fits the 4-bit pen type (at most 16
    colours), holds the pens 0 and 1 used for text, and holds every
    pen of the strip table returned; the strips are pairs and together
    are at most 180 high. *)
Theorem swap_pallette_palette (mode : string) (tr tr' : trace)
    (cs : list (list Z)) (h : Z) :
  swap_pallette mode tr = Ok (cs, h, tr') ->
  exists p,
    tr' = tr ++ [SetPalette p] /\
    (2 <= length p <= 16)%nat /\
    pens_in_palette cs p /\ pairs cs /\
    0 < h /\ h * Z.of_nat (length cs) <= 180.
Proof.
  intros H.
  destruct (String.eqb_spec mode "pan") as [->|Hpan];
    [|destruct (String.eqb_spec mode "pride") as [->|Hpride]].
  - rewrite swap_pallette_pan in H. injection H as <- <- <-.
    exists pan_palette. split; [reflexivity|].
    split; [cbn; lia|]. unfold pens_in_palette, pairs.
    repeat split; repeat constructor; cbn; lia.
  - rewrite swap_pallette_pride in H. injection H as <- <- <-.
    exists pride_palette. split; [reflexivity|].
    split; [cbn; lia|]. unfold pens_in_palette, pairs.
    repeat split; repeat constructor; cbn; lia.
  - rewrite swap_pallette_other in H by assumption. discriminate.
Qed.

Lemma swap_pallette_palette_witness :
  exists p, (2 <= length p <= 16)%nat /\
            pens_in_palette
              [[2; 3]; [4; 5]; [6; 7]; [8; 9]; [10; 11]; [12; 13]] p.
Proof.
  destruct (swap_pallette_palette "pride" [] _ _ _ (swap_pallette_pride []))
    as (p & _ & Hlen & Hpens & _).
  exists p. split; assumption.
Defined.

(** ** The state of the main loop *)

Lemma consistent_cases (s : state) :
  consistent s ->
  (flag s = 0 /\ strip_colors s = [[2; 3]; [4; 5]; [6; 7]] /\
   strip_height s = 60) \/
  (flag s = 1 /\
   strip_colors s = [[2; 3]; [4; 5]; [6; 7]; [8; 9]; [10; 11]; [12; 13]] /\
   strip_height s = 30).
Proof.
  intros [Hr (name & Hname & Htab)].
  unfold flag_in_range, len_FLAGS in Hr; cbn in Hr.
  destruct (Htab []) as [tr' E].
  assert (Hf : flag s = 0 \/ flag s = 1) by lia.
  destruct Hf as [Hf | Hf]; rewrite Hf in Hname; cbn in Hname;
    injection Hname as <-; cbn in E; injection E as <- <- _; auto.
Qed.

Lemma consistent_intro (s : state) (name : string) :
  flag_in_range s -> py_getitem FLAGS (flag s) = Ok name ->
  (forall tr, swap_pallette name tr =
              Ok (strip_colors s, strip_height s,
                  tr ++ [SetPalette (if String.eqb name "pan"
                                     then pan_palette else pride_palette)])) ->
  consistent s.
Proof.
  intros Hr Hname Htab. split; [exact Hr|].
  exists name. split; [exact Hname|]. intros tr. eexists. apply Htab.
Qed.

Lemma consistent_pairs (s : state) : consistent s -> pairs (strip_colors s).
Proof.
  intros H. destruct (consistent_cases s H) as [(_ & -> & _) | (_ & -> & _)];
    repeat constructor.
Qed.

(** [startup] does not raise, whatever the configuration holds: the
    loop starts in mode ["run"] with both overlays off, [tick] not yet
    assigned, and the strip table of the configured flag. *)
Theorem startup_consistent (config : gmap string json) (tr : trace) :
  exists s tr',
    startup config tr = Ok (s, tr') /\ consistent s /\
    mode s = Run /\ tick s = None /\
    show_fps s = false /\ show_qr s = false /\
    flag s = fst (fst (fst (load_config config))).
Proof.
  unfold startup.
  pose proof (load_config_flag_range config) as Hr.
  destruct (load_config config) as [[[f t] sub] c]. cbn [fst] in *.
  assert (Hf : f = 0 \/ f = 1) by (unfold len_FLAGS in Hr; cbn in Hr; lia).
  destruct Hf as [-> | ->]; eexists _, _; (split; [reflexivity|]);
    (split; [|repeat split]);
    (eapply consistent_intro;
     [unfold flag_in_range, len_FLAGS; cbn; lia | reflexivity
     | intros tr0; reflexivity]).
Qed.

(** What one round of button handling does to a consistent state. *)
Lemma poll_controls_step (s : state) (i : inputs) (tr : trace) :
  consistent s ->
  exists s' tr',
    poll_controls s i tr = Ok (s', tr') /\ consistent s' /\
    mode s' = (if button_a i
               then match mode s with Run => Pause | Pause => Run end
               else mode s) /\
    flag s' = (flag s + Z_of_bool (button_up i) - Z_of_bool (button_down i))
              mod len_FLAGS /\
    tick s' = match mode s' with
              | Run => Some (ticks_ms i)
              | Pause => tick s
              end /\
    show_qr s' = xorb (show_qr s) (button_b i) /\
    show_fps s' = xorb (show_fps s) (button_c i).
Proof.
  intros Hs.
  destruct s as [f m t sc sh fps qr].
  destruct (consistent_cases _ Hs) as [(Hf & Hc & Hh) | (Hf & Hc & Hh)];
    cbn in Hf, Hc, Hh; subst f sc sh;
    destruct i as [a b c up down clock lux];
    destruct a, b, c, up, down, m, fps, qr;
    eexists _, _; (split; [lazy; reflexivity|]);
    (split; [|repeat split]);
    (eapply consistent_intro;
     [unfold flag_in_range, len_FLAGS; cbn; lia | reflexivity
     | intros tr0; reflexivity]).
Qed.

(** The whole effect of the button handling of one iteration on a
    consistent state: button A flips the mode; up and down move the
    flag index by one each, modulo the number of flags; [tick] is the
    clock when the iteration ends in mode ["run"] (also in the very
    iteration that resumes) and is left alone otherwise; B and C flip
    the QR and frame-rate overlays; the strip table stays the one of
    the flag. *)
Theorem poll_controls_effect (s s' : state) (i : inputs) (tr tr' : trace) :
  consistent s ->
  poll_controls s i tr = Ok (s', tr') ->
  consistent s' /\
  mode s' = (if button_a i
             then match mode s with Run => Pause | Pause => Run end
             else mode s) /\
  flag s' = (flag s + Z_of_bool (button_up i) - Z_of_bool (button_down i))
            mod len_FLAGS /\
  tick s' = match mode s' with
            | Run => Some (ticks_ms i)
            | Pause => tick s
            end /\
  show_qr s' = xorb (show_qr s) (button_b i) /\
  show_fps s' = xorb (show_fps s) (button_c i).
Proof.
  intros Hs H.
  destruct (poll_controls_step s i tr Hs) as (s1 & tr1 & E & Hall).
  rewrite E in H. injection H as <- <-. exact Hall.
Qed.

Lemma poll_controls_effect_witness :
  exists s' tr',
    poll_controls (MkState 1 Pause (Some 7) [[2; 3]; [4; 5]; [6; 7]; [8; 9];
                                              [10; 11]; [12; 13]] 30
                     false false)
                  (MkInputs true false false true false 2000 0) [] =
    Ok (s', tr') /\
    mode s' = Run /\ flag s' = 0 /\ tick s' = Some 2000.
Proof.
  set (s := MkState 1 Pause (Some 7) [[2; 3]; [4; 5]; [6; 7]; [8; 9];
                                      [10; 11]; [12; 13]] 30 false false).
  set (i := MkInputs true false false true false 2000 0).
  assert (Hs : consistent s).
  { apply (consistent_intro s "pride");
      [unfold flag_in_range, len_FLAGS; cbn; lia | reflexivity
      | intros tr0; reflexivity]. }
  assert (E : exists s' tr', poll_controls s i [] = Ok (s', tr'))
    by (eexists _, _; lazy; reflexivity).
  destruct E as (s' & tr' & E). exists s', tr'. split; [exact E|].
  destruct (poll_controls_effect s s' i [] tr' Hs E)
    as (_ & Hm & Hf & Ht & _).
  rewrite Ht, Hm, Hf. repeat split.
Defined.

(** "next" followed by "previous" (and "previous" followed by
    "next") gives back the state it started from, strip table
    included. *)
Theorem press_up_down_restores (s : state) (tr : trace) :
  consistent s ->
  (exists s1 tr1 tr2,
      press_up s tr = Ok (s1, tr1) /\ press_down s1 tr1 = Ok (s, tr2)) /\
  (exists s1 tr1 tr2,
      press_down s tr = Ok (s1, tr1) /\ press_up s1 tr1 = Ok (s, tr2)).
Proof.
  intros Hs. destruct s as [f m t sc sh fps qr].
  destruct (consistent_cases _ Hs) as [(Hf & Hc & Hh) | (Hf & Hc & Hh)];
    cbn in Hf, Hc, Hh; subst f sc sh;
    split; eexists _, _, _; split; lazy; reflexivity.
Qed.

Lemma press_up_down_restores_witness :
  exists s1 tr1 tr2,
    press_up (MkState 0 Run None [[2; 3]; [4; 5]; [6; 7]] 60 false false) []
    = Ok (s1, tr1) /\
    press_down s1 tr1 =
    Ok (MkState 0 Run None [[2; 3]; [4; 5]; [6; 7]] 60 false false, tr2).
Proof.
  apply (press_up_down_restores
           (MkState 0 Run None [[2; 3]; [4; 5]; [6; 7]] 60 false false) []).
  apply (consistent_intro _ "pan");
    [unfold flag_in_range, len_FLAGS; cbn; lia | reflexivity
    | intros tr0; reflexivity].
Defined.

(** ** Runs of the main loop *)

(** An iteration on a consistent state goes through when [tick] is
    assigned by the time the flag is drawn. *)
Lemma iteration_ok (WIDTH : Z) (s : state) (i : inputs) (tr : trace) :
  consistent s ->
  tick s <> None \/
  (if button_a i then mode s = Pause else mode s = Run) ->
  exists s' tr',
    iteration WIDTH s i tr = Ok (s', tr') /\ consistent s' /\
    tick s' <> None.
Proof.
  intros Hs Htick.
  destruct (poll_controls_step s i tr Hs)
    as (s1 & tr1 & E & Hs1 & Hm & _ & Ht & _).
  assert (Ht1 : exists t, tick s1 = Some t).
  { rewrite Ht, Hm. destruct Htick as [Hn | Ha].
    - destruct (button_a i), (mode s), (tick s); eauto; congruence.
    - destruct (button_a i); rewrite Ha; eauto. }
  destruct Ht1 as [t Et].
  destruct (draw_flag_ok WIDTH (inject_Z t) (strip_colors s1)
              (strip_height s1) ((tr1 ++ [SetPen 0]) ++ [Clear])
              (consistent_pairs s1 Hs1)) as [tr2 Ed].
  exists s1, ((tr2 ++ [Update]) ++
              [SetBacklight (backlight_level (lux_u16 i))]).
  unfold iteration, bind, ret, update_backlight.
  rewrite E. unfold emit at 1 2. rewrite Et. cbn beta iota. rewrite Ed.
  split; [reflexivity|].
  split; [exact Hs1|congruence].
Qed.

(** Without the overlay the loop does not raise: from the state that
    [startup] leaves, any number of iterations go through, whatever
    the buttons, the clock and the light sensor read, provided button
    A is not pressed in the first iteration.  The strip table stays
    the one of the current flag and [tick] stays assigned. *)
Theorem run_loop_ok (WIDTH : Z) (config : gmap string json)
    (s0 : state) (tr tr0 : trace) (i : inputs) (readings : list inputs) :
  startup config tr = Ok (s0, tr0) ->
  button_a i = false ->
  exists s' tr',
    run_loop WIDTH s0 (i :: readings) tr0 = Ok (s', tr') /\
    consistent s' /\ tick s' <> None.
Proof.
  intros Hstart Ha.
  destruct (startup_consistent config tr)
    as (s & tr1 & E & Hs & Hm & _).
  rewrite E in Hstart. injection Hstart as <- <-.
  assert (Hrun : forall readings s tr,
             consistent s -> tick s <> None ->
             exists s' tr',
               run_loop WIDTH s readings tr = Ok (s', tr') /\
               consistent s' /\ tick s' <> None).
  { clear. induction readings as [|i readings IH]; intros s tr Hs Ht.
    - exists s, tr. split; [reflexivity|]. split; assumption.
    - destruct (iteration_ok WIDTH s i tr Hs (or_introl Ht))
        as (s1 & tr1 & E & Hs1 & Ht1).
      destruct (IH s1 tr1 Hs1 Ht1) as (s2 & tr2 & E2 & Hs2 & Ht2).
      exists s2, tr2. cbn [run_loop]. unfold bind. rewrite E.
      split; [exact E2|]. split; assumption. }
  destruct (iteration_ok WIDTH s i tr1 Hs) as (s1 & tr2 & E1 & Hs1 & Ht1).
  { right. now rewrite Ha. }
  destruct (Hrun readings s1 tr2 Hs1 Ht1) as (s2 & tr3 & E2 & Hs2 & Ht2).
  exists s2, tr3. cbn [run_loop]. unfold bind. rewrite E1.
  split; [exact E2|]. split; assumption.
Qed.

Lemma run_loop_ok_witness :
  exists s0 tr0 s' tr',
    startup ∅ [] = Ok (s0, tr0) /\
    run_loop 320 s0 [MkInputs false true false true false 10 500;
                     MkInputs true false true false true 26 9000] tr0
    = Ok (s', tr') /\ tick s' <> None.
Proof.
  assert (E : exists s0 tr0, startup ∅ [] = Ok (s0, tr0))
    by (eexists _, _; lazy; reflexivity).
  destruct E as (s0 & tr0 & E).
  destruct (run_loop_ok 320 ∅ s0 [] tr0
              (MkInputs false true false true false 10 500)
              [MkInputs true false true false true 26 9000] E eq_refl)
    as (s' & tr' & Hrun & _ & Ht).
  exists s0, tr0, s', tr'. split; [exact E|]. split; assumption.
Defined.

(** Button A in the very first iteration: the mode becomes ["pause"]
    before [tick] was ever assigned, and drawing the flag raises
    [NameError]. *)
Theorem first_iteration_button_a (WIDTH : Z) (config : gmap string json)
    (s0 : state) (tr tr0 : trace) (i : inputs) :
  startup config tr = Ok (s0, tr0) ->
  button_a i = true ->
  iteration WIDTH s0 i tr0 = Raise NameError.
Proof.
  intros Hstart Ha.
  destruct (startup_consistent config tr)
    as (s & tr1 & E & Hs & Hm & Ht & _).
  rewrite E in Hstart. injection Hstart as <- <-.
  destruct (poll_controls_step s i tr1 Hs)
    as (s1 & tr2 & E1 & _ & Hm1 & _ & Ht1 & _).
  rewrite Ha, Hm in Hm1. rewrite Hm1, Ht in Ht1.
  unfold iteration, bind, emit, raise. now rewrite E1, Ht1.
Qed.

Lemma first_iteration_button_a_witness :
  exists s0 tr0,
    startup ∅ [] = Ok (s0, tr0) /\
    iteration 320 s0 (MkInputs true false false false false 5 0) tr0
    = Raise NameError.
Proof.
  assert (E : exists s0 tr0, startup ∅ [] = Ok (s0, tr0))
    by (eexists _, _; lazy; reflexivity).
  destruct E as (s0 & tr0 & E). exists s0, tr0. split; [exact E|].
  exact (first_iteration_button_a 320 ∅ s0 [] tr0
           (MkInputs true false false false false 5 0) E eq_refl).
Defined.

(** ** The values of [frange] *)

Lemma inject_nat_succ (k : nat) :
  (inject_Z (Z.of_nat (S k)) == inject_Z (Z.of_nat k) + 1)%Q.
Proof. rewrite Nat2Z.inj_succ, <- Z.add_1_r, inject_Z_plus. reflexivity. Qed.

Lemma Qgtb_false (a b : Q) : Qgtb a b = false <-> (a <= b)%Q.
Proof.
  unfold Qgtb. rewrite negb_false_iff. apply Qle_bool_iff.
Qed.

Section FrangeValues.

Variables stop step : Q.

(** Parked inside the loop after [x] was yielded: the further values
    are [x + step], [x + 2 * step], ... up to the first one above
    [stop], and then [stop]. *)
Lemma frange_loop_values (r : nat) :
  forall x : Q,
    (stop < x + inject_Z (Z.of_nat r) * step)%Q ->
    exists (j fuel : nat) (ys : list Q),
      collect fuel (MkGen AtYield104 x stop step) = Some (ys ++ [stop]) /\
      length ys = j /\
      (forall k, (k < j)%nat ->
         exists y, ys !! k = Some y /\
                   (y == x + inject_Z (Z.of_nat (S k)) * step)%Q) /\
      (stop < x + inject_Z (Z.of_nat j) * step)%Q /\
      (forall k, (k < j)%nat ->
         (x + inject_Z (Z.of_nat k) * step <= stop)%Q).
Proof.
  assert (Hexit : forall x, (stop < x)%Q ->
            exists (j fuel : nat) (ys : list Q),
              collect fuel (MkGen AtYield104 x stop step)
              = Some (ys ++ [stop]) /\
              length ys = j /\
              (forall k, (k < j)%nat ->
                 exists y, ys !! k = Some y /\
                           (y == x + inject_Z (Z.of_nat (S k)) * step)%Q) /\
              (stop < x + inject_Z (Z.of_nat j) * step)%Q /\
              (forall k, (k < j)%nat ->
                 (x + inject_Z (Z.of_nat k) * step <= stop)%Q)).
  { intros x Hx. exists 0%nat, 2%nat, []. cbn [collect app].
    unfold next; cbn [g_pc g_x g_stop g_step].
    apply Qgtb_true in Hx as Hb. rewrite Hb.
    split; [reflexivity|]. split; [reflexivity|].
    split; [intros k Hk; lia|].
    split; [|intros k Hk; lia].
    change (inject_Z (Z.of_nat 0)) with 0%Q. lra. }
  induction r as [|r IH]; intros x Hr.
  - apply Hexit. change (inject_Z (Z.of_nat 0)) with 0%Q in Hr. lra.
  - destruct (Qgtb x stop) eqn:Eb; [apply Hexit; now apply Qgtb_true|].
    apply Qgtb_false in Eb as Hle.
    destruct (IH (x + step)%Q) as (j & fuel & ys & Hc & Hlen & Hys & Hj & Hk).
    { rewrite inject_nat_succ in Hr. count_lra Hr. }
    exists (S j), (S fuel), ((x + step)%Q :: ys).
    cbn [collect]. unfold next at 1; cbn [g_pc g_x g_stop g_step].
    rewrite Eb, Hc. split; [reflexivity|].
    split; [cbn [length]; now rewrite Hlen|].
    split; [|split].
    + intros [|k] Hlt.
      * exists (x + step)%Q. split; [reflexivity|].
        change (inject_Z (Z.of_nat 1)) with 1%Q. lra.
      * destruct (Hys k ltac:(lia)) as (y & Ey & Hy).
        exists y. split; [exact Ey|]. rewrite Hy.
        rewrite (inject_nat_succ (S k)). count_lra Hle.
    + rewrite inject_nat_succ. count_lra Hj.
    + intros [|k] Hlt.
      * change (inject_Z (Z.of_nat 0)) with 0%Q. lra.
      * specialize (Hk k ltac:(lia)). rewrite inject_nat_succ.
        count_lra Hk.
Qed.

End FrangeValues.

(** With a positive step, [frange(start, stop, step)] yields
    [start], [start + step], ..., [start + n * step] and then [stop],
    where [n >= 1] is the first positive count of steps that passes
    [stop]: the first value and the first step are yielded without
    being compared with [stop]. *)
Theorem frange_values (start stop step : Q) :
  (0 < step)%Q ->
  exists (n fuel : nat) (xs : list Q),
    (1 <= n)%nat /\
    collect fuel (frange start stop step) = Some (xs ++ [stop]) /\
    length xs = S n /\
    (forall k, (k <= n)%nat ->
       exists x, xs !! k = Some x /\
                 (x == start + inject_Z (Z.of_nat k) * step)%Q) /\
    (stop < start + inject_Z (Z.of_nat n) * step)%Q /\
    (forall k, (1 <= k < n)%nat ->
       (start + inject_Z (Z.of_nat k) * step <= stop)%Q).
Proof.
  intros Hstep.
  destruct (enough_steps stop step (start + step)%Q Hstep) as [r Hr].
  destruct (frange_loop_values stop step r _ Hr)
    as (j & fuel & ys & Hc & Hlen & Hys & Hj & Hk).
  exists (S j), (S (S fuel)), (start :: (start + step)%Q :: ys).
  split; [lia|]. split; [|split; [|split; [|split]]].
  - cbn [collect frange next g_pc g_x g_stop g_step]. now rewrite Hc.
  - cbn [length]. now rewrite Hlen.
  - intros [|[|k]] Hle.
    + exists start. split; [reflexivity|].
      change (inject_Z (Z.of_nat 0)) with 0%Q. lra.
    + exists (start + step)%Q. split; [reflexivity|].
      change (inject_Z (Z.of_nat 1)) with 1%Q. lra.
    + destruct (Hys k ltac:(lia)) as (y & Ey & Hy).
      exists y. split; [exact Ey|]. rewrite Hy.
      rewrite (inject_nat_succ (S k)). count_lra Hstep.
  - rewrite inject_nat_succ. count_lra Hj.
  - intros [|k] Hlt; [lia|].
    specialize (Hk k ltac:(lia)). rewrite inject_nat_succ.
    count_lra Hk.
Qed.

Lemma frange_values_witness :
  exists (n fuel : nat) (xs : list Q),
    collect fuel (frange 0 10 3) = Some (xs ++ [10%Q]) /\
    length xs = S n /\ (10 < 0 + inject_Z (Z.of_nat n) * 3)%Q.
Proof.
  destruct (frange_values 0 10 3 ltac:(reflexivity))
    as (n & fuel & xs & _ & E & Hlen & _ & Hn & _).
  exists n, fuel, xs. split; [exact E|]. split; assumption.
Defined.

(** When one step from [start] already passes [stop] (in particular
    when [start] is beyond [stop] and the step is positive) the
    generator still yields [start] and [start + step] before [stop]:
    it never yields fewer than three values. *)
Theorem frange_short_range (start stop step : Q) :
  (stop < start + step)%Q ->
  collect 4 (frange start stop step) = Some [start; (start + step)%Q; stop].
Proof.
  intros H. apply Qgtb_true in H.
  cbn [collect frange next g_pc g_x g_stop g_step]. now rewrite H.
Qed.

Lemma frange_short_range_witness :
  collect 4 (frange 5 0 1) = Some [5%Q; (5 + 1)%Q; 0%Q].
Proof. apply frange_short_range. reflexivity. Defined.

(** With a step that is zero or negative and [start + step <= stop],
    the generator never stops: no bound on the number of calls of
    [next] is enough. *)
Theorem frange_nonpositive_step (start stop step : Q) (fuel : nat) :
  (step <= 0)%Q -> (start + step <= stop)%Q ->
  collect fuel (frange start stop step) = None.
Proof.
  intros Hstep Hle.
  assert (Hloop : forall fuel x, (x <= stop)%Q ->
            collect fuel (MkGen AtYield104 x stop step) = None).
  { clear fuel. induction fuel as [|fuel IH]; intros x Hx; [reflexivity|].
    cbn [collect]. unfold next; cbn [g_pc g_x g_stop g_step].
    apply Qgtb_false in Hx as Eb. rewrite Eb, IH; [reflexivity|]. lra. }
  destruct fuel as [|[|fuel]]; try reflexivity.
  cbn [collect frange next g_pc g_x g_stop g_step].
  now rewrite Hloop.
Qed.

Lemma frange_nonpositive_step_witness :
  collect 1000 (frange 0 10 (-1)) = None.
Proof. apply frange_nonpositive_step; discriminate. Defined.

(** ** The amplitude of the wave *)

Lemma weight_range (i : nat) : (0 <= weight i <= 1)%Q.
Proof.
  destruct i as [|j]; cbn [weight]; [split; discriminate|].
  split; [|apply Q.le_min_l].
  apply Q.min_glb; [discriminate|].
  assert (0 <= inject_Z (Z.of_nat j) / 12)%Q.
  { apply Qle_shift_div_l; [reflexivity|]. rewrite Qmult_0_l.
    change 0%Q with (inject_Z 0). rewrite <- Zle_Qle. lia. }
  lra.
Qed.

Lemma py_int_abs (r b : R) : (Rabs r <= b)%R -> (IZR (Z.abs (py_int r)) <= b)%R.
Proof.
  intros Hb. unfold py_int.
  destruct (Rle_dec 0 r) as [Hr | Hr].
  - destruct (base_Int_part r) as [H1 H2].
    assert (0 <= Int_part r).
    { apply Z.lt_succ_r, lt_IZR. rewrite succ_IZR. lra. }
    rewrite Z.abs_eq by assumption.
    rewrite Rabs_pos_eq in Hb by assumption. lra.
  - destruct (base_Int_part (- r)) as [H1 H2].
    assert (0 <= Int_part (- r)).
    { apply Z.lt_succ_r, lt_IZR. rewrite succ_IZR. lra. }
    rewrite Z.abs_opp, Z.abs_eq by assumption.
    rewrite Rabs_left in Hb by lra. lra.
Qed.

Lemma col_offsets_entry_bound (tick : Q) (i : nat) (o : Z) :
  col_offsets tick !! i = Some o ->
  (IZR (Z.abs o) <= 15 * Q2R (weight i))%R /\ -15 <= o <= 15.
Proof.
  intros Ho.
  assert (Hi : (i < 13)%nat).
  { apply lookup_lt_Some in Ho. unfold col_offsets in Ho.
    now rewrite length_map, samples_eq in Ho. }
  destruct (samples_closed_form i Hi) as (x & w & E & Hx & Hw).
  rewrite (col_offsets_entry tick i x w E) in Ho. injection Ho as <-.
  destruct (weight_range i) as [Hw0 Hw1].
  apply Qle_Rle in Hw0, Hw1.
  rewrite (Q2R_const 0 0 1) in Hw0 by reflexivity.
  rewrite (Q2R_const 1 1 1) in Hw1 by reflexivity.
  assert (Hbound : (IZR (Z.abs (py_int (Q2R (15 * w) *
                                         sin (Q2R (tick / 200 + x)))))
                    <= 15 * Q2R (weight i))%R).
  { apply py_int_abs.
    rewrite Q2R_mult, (Qeq_eqR _ _ Hw), (Q2R_const 15 15 1) by reflexivity.
    pose proof (SIN_bound (Q2R (tick / 200 + x))) as [Hs1 Hs2].
    apply Rabs_le. split; nra. }
  split; [exact Hbound|].
  assert (Hz : Z.abs (py_int (Q2R (15 * w) * sin (Q2R (tick / 200 + x))))
               <= 15).
  { apply le_IZR. lra. }
  lia.
Qed.

(** Whatever the tick, entry [i] of the offset table is at most
    [15 * w_i] in absolute value, [w_i] being the weight of boundary
    [i]; in particular no offset leaves the range from -15 to 15. *)
Theorem col_offsets_amplitude (tick : Q) (i : nat) (o : Z) :
  col_offsets tick !! i = Some o ->
  (IZR (Z.abs o) <= 15 * Q2R (weight i))%R /\ -15 <= o <= 15 /\
  (0 <= weight i <= 1)%Q.
Proof.
  intros Ho. destruct (col_offsets_entry_bound tick i o Ho) as [H1 H2].
  split; [exact H1|]. split; [exact H2|]. apply weight_range.
Qed.

Lemma col_offsets_amplitude_witness :
  exists o, col_offsets 0 !! 3%nat = Some o /\ -15 <= o <= 15.
Proof.
  exists 1. split; [exact col_offsets_0_3|].
  apply (col_offsets_amplitude 0 3 1 col_offsets_0_3).
Defined.

Lemma WEIGHTS_closed_form (i : nat) (w : Q) :
  WEIGHTS !! i = Some w -> (w == weight i)%Q.
Proof.
  intros Hw.
  assert (Hi : (i < 13)%nat) by (apply lookup_lt_Some in Hw; exact Hw).
  revert Hw.
  do 13 (destruct i as [|i];
         [intros [= <-]; vm_compute; reflexivity|]).
  lia.
Qed.

Lemma weight_monotone (i j : nat) :
  (i <= j)%nat -> (weight i <= weight j)%Q.
Proof.
  intros Hij. destruct i as [|i]; [apply weight_range|].
  destruct j as [|j]; [lia|]. cbn [weight].
  apply Q.min_le_compat_l.
  assert (inject_Z (Z.of_nat i) <= inject_Z (Z.of_nat j))%Q
    by (rewrite <- Zle_Qle; lia).
  apply Qplus_le_l. unfold Qdiv. apply Qmult_le_compat_r;
    [assumption|discriminate].
Qed.

(** [WEIGHTS] has one weight for each of the 13 column boundaries; the
    weights lie between 0 and 1 and never fall from one boundary to the
    next: the flag moves less towards the pole. *)
Theorem WEIGHTS_monotone :
  length WEIGHTS = 13%nat /\
  forall i j wi wj,
    (i <= j)%nat -> WEIGHTS !! i = Some wi -> WEIGHTS !! j = Some wj ->
    (0 <= wi)%Q /\ (wi <= wj)%Q /\ (wj <= 1)%Q.
Proof.
  split; [reflexivity|].
  intros i j wi wj Hij Hi Hj.
  apply WEIGHTS_closed_form in Hi, Hj. rewrite Hi, Hj.
  split; [apply weight_range|].
  split; [now apply weight_monotone|apply weight_range].
Qed.

Lemma WEIGHTS_monotone_witness :
  exists wi wj,
    WEIGHTS !! 1%nat = Some wi /\ WEIGHTS !! 10%nat = Some wj /\
    (wi <= wj)%Q.
Proof.
  destruct WEIGHTS_monotone as [_ H].
  eexists _, _. split; [reflexivity|]. split; [reflexivity|].
  refine (proj1 (proj2 (H 1%nat 10%nat _ _ _ eq_refl eq_refl))). lia.
Defined.

(** ** The geometry of the flag *)

Lemma enumerate_from_lookup_inv {A} (l : list A) (r : Z) (k : nat)
    (z : Z) (a : A) :
  enumerate_from r l !! k = Some (z, a) ->
  z = r + Z.of_nat k /\ l !! k = Some a.
Proof.
  revert r k. induction l as [|b l IH]; intros r k; [now destruct k|].
  destruct k as [|k]; cbn.
  - intros [= <- <-]. split; [lia|reflexivity].
  - intros H. apply IH in H as [-> H]. split; [lia|exact H].
Qed.

Lemma py_getitem_inv {A} (l : list A) (i : Z) (a : A) :
  0 <= i -> py_getitem l i = Ok a -> l !! Z.to_nat i = Some a.
Proof.
  intros Hi. unfold py_getitem.
  destruct (i <? 0) eqn:E0; [lia|].
  rewrite E0. destruct (Z.of_nat (length l) <=? i); cbn [orb];
    [discriminate|].
  destruct (l !! Z.to_nat i); [now intros [= ->]|discriminate].
Qed.

(** The quadrilaterals of a run of [draw_strips], by strip and column. *)
Lemma draw_strips_at (WIDTH : Z) (offsets : list Z)
    (color_list : list (list Z)) (h : Z) (tr tr' : trace) :
  draw_strips WIDTH offsets color_list h tr = Ok (tt, tr') ->
  exists new, tr' = tr ++ new /\
    forall pen0,
      length (painted pen0 new) = (length color_list * 12)%nat /\
      forall row col q,
        (col < 12)%nat ->
        painted pen0 new !! (row * 12 + col)%nat = Some q ->
        exists colors,
          color_list !! row = Some colors /\
          quad_of WIDTH offsets h (Z.of_nat row) colors (Z.of_nat col) q.
Proof.
  unfold draw_strips, enumerate. intros H.
  apply draw_rows_inv in H as (qss & Hqss & ->).
  exists (flat_map quad_cmds (concat qss)). split; [reflexivity|].
  assert (Hlen : Forall (fun qs => length qs = 12%nat) qss).
  { clear -Hqss. induction Hqss as [|rc qs l l' Hq _ IH]; constructor; auto.
    apply Forall2_length in Hq. rewrite <- Hq. reflexivity. }
  assert (Hcat : length (concat qss) = (length qss * 12)%nat).
  { clear -Hlen. induction Hlen as [|qs qss Hq _ IH]; [reflexivity|].
    cbn [concat length]. rewrite length_app, IH, Hq. lia. }
  intros pen0. rewrite painted_quads. split.
  - rewrite Hcat. apply Forall2_length in Hqss.
    rewrite enumerate_from_length in Hqss. now rewrite Hqss.
  - intros row col q Hcol Hq.
    assert (Hrow : (row < length qss)%nat).
    { apply lookup_lt_Some in Hq. rewrite Hcat in Hq. nia. }
    destruct (lookup_lt_is_Some_2 qss row Hrow) as [qs Eqs].
    rewrite (concat_lookup_block 12 qss row col qs Hlen Hcol Eqs) in Hq.
    destruct (Forall2_lookup_r _ _ _ _ _ Hqss Eqs) as ([z colors] & Hen & Hrowq).
    apply enumerate_from_lookup_inv in Hen as [-> Hcolors].
    exists colors. split; [exact Hcolors|].
    cbn [fst snd] in Hrowq.
    pose proof (range_lookup 12 col Hcol) as Hrng.
    exact (Forall2_lookup_lr _ _ _ _ _ _ Hrowq Hrng Hq).
Qed.

(** On a strip table of pairs [draw_flag] does not raise, at any tick,
    and draws [COLS] quadrilaterals of four corners for each strip. *)
Theorem draw_flag_total (WIDTH : Z) (tick : Q) (color_list : list (list Z))
    (h : Z) (tr : trace) :
  pairs color_list ->
  exists new,
    draw_flag WIDTH tick color_list h tr = Ok (tt, tr ++ new) /\
    forall pen0,
      length (painted pen0 new) = (length color_list * 12)%nat /\
      Forall (fun q => length (snd q) = 4%nat) (painted pen0 new).
Proof.
  intros Hp.
  destruct (draw_flag_ok WIDTH tick color_list h tr Hp) as [tr' E].
  unfold draw_flag in *.
  destruct (draw_strips_at _ _ _ _ _ _ E) as (new & -> & Hnew).
  exists new. split; [exact E|].
  intros pen0. destruct (Hnew pen0) as [Hlen Hq]. split; [exact Hlen|].
  apply Forall_lookup_2. intros k q Hk.
  assert (Hk12 : (k = k / 12 * 12 + k mod 12)%nat).
  { pose proof (Nat.div_mod_eq k 12). lia. }
  rewrite Hk12 in Hk.
  destruct (Hq (k / 12)%nat (k mod 12)%nat q) as (colors & _ & Hquad);
    [apply Nat.mod_upper_bound; lia | exact Hk |].
  destruct Hquad as (o0 & o1 & _ & _ & Hpts & _).
  now rewrite Hpts.
Qed.

Lemma draw_flag_total_witness :
  exists new,
    draw_flag 320 0 pan_colors 60 [] = Ok (tt, new) /\
    length (painted 0 new) = 36%nat.
Proof.
  destruct (draw_flag_total 320 0 pan_colors 60 [])
    as (new & E & Hnew).
  - repeat constructor.
  - exists new. split; [exact E|]. apply (Hnew 0).
Defined.

(** The flag stays in its band: with a display width that is not
    negative and a strip height that is not negative, every corner that
    [draw_flag] draws has its x between 0 and the width and its y
    between 15 and [45 + strips * height] (225 for both flags). *)
Theorem draw_flag_in_band (WIDTH : Z) (tick : Q)
    (color_list : list (list Z)) (h : Z) (tr tr' : trace) :
  0 <= WIDTH -> 0 <= h ->
  draw_flag WIDTH tick color_list h tr = Ok (tt, tr') ->
  exists new, tr' = tr ++ new /\
    forall pen0 pen pts x y,
      In (pen, pts) (painted pen0 new) -> In (x, y) pts ->
      0 <= x <= WIDTH /\
      15 <= y <= 45 + Z.of_nat (length color_list) * h.
Proof.
  intros HW Hh E. unfold draw_flag in E.
  destruct (draw_strips_at _ _ _ _ _ _ E) as (new & -> & Hnew).
  exists new. split; [reflexivity|].
  intros pen0 pen pts x y Hq Hxy.
  destruct (Hnew pen0) as [Hlen Hat].
  apply list_elem_of_In, list_elem_of_lookup in Hq as [k Hk].
  assert (Hk12 : (k = k / 12 * 12 + k mod 12)%nat).
  { pose proof (Nat.div_mod_eq k 12). lia. }
  assert (Hcol : (k mod 12 < 12)%nat) by (apply Nat.mod_upper_bound; lia).
  assert (Hrow : (k / 12 < length color_list)%nat).
  { apply lookup_lt_Some in Hk. rewrite Hlen in Hk.
    apply Nat.Div0.div_lt_upper_bound. lia. }
  rewrite Hk12 in Hk.
  destruct (Hat _ _ _ Hcol Hk) as (colors & _ & o0 & o1 & E0 & E1 & Hpts & _).
  cbn [fst snd] in Hpts. subst pts.
  apply py_getitem_inv in E0; [|lia]. apply py_getitem_inv in E1; [|lia].
  apply col_offsets_entry_bound in E0 as [_ B0].
  apply col_offsets_entry_bound in E1 as [_ B1].
  assert (HCW : 0 <= COL_WIDTH WIDTH /\ 12 * COL_WIDTH WIDTH <= WIDTH).
  { unfold COL_WIDTH, COLS. split; [apply Z.div_pos; lia|].
    apply Z.mul_div_le. lia. }
  set (r := Z.of_nat (k / 12)) in *. set (c := Z.of_nat (k mod 12)) in *.
  assert (Hr : 0 <= r <= Z.of_nat (length color_list) - 1) by lia.
  assert (Hc : 0 <= c <= 11) by lia.
  assert (Hrh : 0 <= r * h <= (Z.of_nat (length color_list) - 1) * h) by nia.
  assert (Hcw : 0 <= c * COL_WIDTH WIDTH <= 11 * COL_WIDTH WIDTH) by nia.
  destruct Hxy as [[= <- <-] | [[= <- <-] | [[= <- <-] | [[= <- <-] | []]]]];
    lia.
Qed.

Lemma draw_flag_in_band_witness :
  exists new,
    draw_flag 320 0 pan_colors 60 [] = Ok (tt, new) /\
    forall pen pts x y,
      In (pen, pts) (painted 0 new) -> In (x, y) pts ->
      0 <= x <= 320 /\ 15 <= y <= 225.
Proof.
  destruct (draw_flag_ok 320 0 pan_colors 60 []) as [tr' E];
    [repeat constructor|].
  destruct (draw_flag_in_band 320 0 pan_colors 60 [] tr' ltac:(lia)
              ltac:(lia) E) as (new & Hnew & Hband).
  cbn [app] in Hnew. subst tr'.
  exists new. split; [exact E|]. exact (Hband 0).
Defined.

(** The quadrilaterals tile the flag without gaps: in a strip, the
    left edge of a quadrilateral is the right edge of the one before
    it, and the top edge of a quadrilateral is the bottom edge of the
    one above it in the previous strip. *)
Theorem draw_strips_tiles (WIDTH : Z) (offsets : list Z)
    (color_list : list (list Z)) (h : Z) (tr tr' : trace) :
  draw_strips WIDTH offsets color_list h tr = Ok (tt, tr') ->
  exists new, tr' = tr ++ new /\
    forall pen0 row col pen1 pen2 tl1 tr1 br1 bl1 tl2 tr2 br2 bl2,
      painted pen0 new !! (row * 12 + col)%nat
        = Some (pen1, [tl1; tr1; br1; bl1]) ->
      ((col < 11)%nat ->
       painted pen0 new !! (row * 12 + S col)%nat
         = Some (pen2, [tl2; tr2; br2; bl2]) ->
       tl2 = tr1 /\ bl2 = br1) /\
      ((col < 12)%nat ->
       painted pen0 new !! (S row * 12 + col)%nat
         = Some (pen2, [tl2; tr2; br2; bl2]) ->
       tl2 = bl1 /\ tr2 = br1).
Proof.
  intros E.
  destruct (draw_strips_at _ _ _ _ _ _ E) as (new & -> & Hnew).
  exists new. split; [reflexivity|].
  intros pen0 row col pen1 pen2 tl1 tr1 br1 bl1 tl2 tr2 br2 bl2 H1.
  destruct (Hnew pen0) as [_ Hat].
  split.
  - intros Hcol H2.
    destruct (Hat row col _ ltac:(lia) H1)
      as (c1 & _ & o0 & o1 & E0 & E1 & Hp1 & _).
    destruct (Hat row (S col) _ ltac:(lia) H2)
      as (c2 & _ & o0' & o1' & E0' & E1' & Hp2 & _).
    cbn [fst snd] in Hp1, Hp2.
    replace (Z.of_nat (S col)) with (Z.of_nat col + 1) in * by lia.
    rewrite E1 in E0'. injection E0' as <-.
    injection Hp1 as -> -> -> ->. injection Hp2 as -> -> -> ->.
    split; f_equal; lia.
  - intros Hcol H2.
    destruct (Hat row col _ Hcol H1)
      as (c1 & _ & o0 & o1 & E0 & E1 & Hp1 & _).
    destruct (Hat (S row) col _ Hcol H2)
      as (c2 & _ & o0' & o1' & E0' & E1' & Hp2 & _).
    cbn [fst snd] in Hp1, Hp2.
    rewrite E0 in E0'. injection E0' as <-.
    rewrite E1 in E1'. injection E1' as <-.
    injection Hp1 as -> -> -> ->. injection Hp2 as -> -> -> ->.
    split; f_equal; lia.
Qed.

Lemma draw_strips_tiles_witness :
  exists tr',
    draw_strips 320 example_offsets pan_colors 60 [] = Ok (tt, tr') /\
    painted 0 tr' !! 15%nat =
      Some (4, [(78, 100); (104, 97); (104, 157); (78, 160)]) /\
    painted 0 tr' !! 16%nat =
      Some (4, [(104, 97); (130, 90); (130, 150); (104, 157)]).
Proof.
  destruct example_painted as (tr' & E & H15 & H16 & _).
  destruct (draw_strips_tiles 320 example_offsets pan_colors 60 [] tr' E)
    as (new & Hnew & Htile).
  cbn [app] in Hnew. subst new.
  destruct (Htile 0 1%nat 3%nat 4 4 (78, 100) (104, 97) (104, 157) (78, 160)
              (104, 97) (130, 90) (130, 150) (104, 157) H15) as [Hh _].
  destruct (Hh ltac:(lia) H16) as [_ _].
  exists tr'. split; [exact E|]. split; assumption.
Defined.

(** ** The overlay *)

(** [text_centered] draws the text twice with the same scale, first
    the shadow in pen 0, moved by [shadow] in both directions, then
    the text in pen 1 on top of it.  The text is centred on [(x, y)]:
    exactly in the vertical (glyphs are [8 * scale] high), and to the
    pixel in the horizontal (the part right of [x] is as long as the
    part left of it, or one longer). *)
Theorem text_centered_centred (measure_text : string -> Z -> Z -> Z)
    (text : string) (x y scale shadow : Z) :
  exists tx ty,
    text_centered measure_text text x y scale shadow =
      [ OSetFont "bitmap8";
        OSetPen 0; OText text (tx + shadow) (ty + shadow) scale 1;
        OSetPen 1; OText text tx ty scale 1 ] /\
    (ty + 8 * scale) - y = y - ty /\
    0 <= (tx + measure_text text scale 1 - x) - (x - tx) <= 1.
Proof.
  eexists _, _. split; [reflexivity|].
  split.
  - replace (8 * scale) with (4 * scale * 2) by lia.
    rewrite Z.div_mul by lia. lia.
  - pose proof (Z.div_mod (measure_text text scale 1) 2 ltac:(lia)).
    pose proof (Z.mod_pos_bound (measure_text text scale 1) 2 ltac:(lia)).
    lia.
Qed.

Section OverlayFacts.

Variables WIDTH HEIGHT : Z.
Variable get_size : QRCode -> Z * Z.
Variable get_module : QRCode -> Z -> Z -> bool.

Lemma in_range (n : nat) (z : Z) : In z (range n) <-> 0 <= z < Z.of_nat n.
Proof.
  unfold range. rewrite in_map_iff. split.
  - intros (k & <- & Hk). apply in_seq in Hk. lia.
  - intros Hz. exists (Z.to_nat z). split; [lia|]. apply in_seq. lia.
Qed.

Lemma in_module_rects (code : QRCode) (left top dot : Z) (w h : nat)
    (c : overlay_cmd) :
  In c (flat_map (fun x =>
          flat_map (fun y => module_rect get_module code left top dot x y)
                   (range h))
          (range w)) <->
  exists x y, 0 <= x < Z.of_nat w /\ 0 <= y < Z.of_nat h /\
              get_module code x y = true /\
              c = ORectangle (left + x * dot) (top + y * dot) dot dot.
Proof.
  rewrite in_flat_map. split.
  - intros (x & Hx & Hc). apply in_flat_map in Hc as (y & Hy & Hc).
    apply in_range in Hx, Hy. unfold module_rect in Hc.
    destruct (get_module code x y) eqn:Em; [|destruct Hc].
    destruct Hc as [<- | []]. now exists x, y.
  - intros (x & y & Hx & Hy & Hm & ->).
    exists x. split; [now apply in_range|].
    apply in_flat_map. exists y. split; [now apply in_range|].
    unfold module_rect. rewrite Hm. now left.
Qed.

(** [qr_code] raises [ZeroDivisionError] exactly when the code has
    width 0, before anything is drawn; otherwise it returns. *)
Theorem qr_code_division (code : QRCode) (fg bg width : Z) :
  (fst (get_size code) = 0 ->
   qr_code WIDTH HEIGHT get_size get_module code fg bg width
   = Raise ZeroDivisionError) /\
  (fst (get_size code) <> 0 ->
   exists cmds,
     qr_code WIDTH HEIGHT get_size get_module code fg bg width = Ok cmds).
Proof.
  unfold qr_code, py_floordiv. destruct (get_size code) as [w h]. cbn [fst].
  split.
  - intros ->. reflexivity.
  - intros Hw. apply Z.eqb_neq in Hw. rewrite Hw. eexists; reflexivity.
Qed.

(** The square of the QR code: for a code that is [w > 0] modules wide
    and a requested width that is not negative, the background
    rectangle is drawn first, in pen [fg], is at most [width] and more
    than [width - w] wide, and is centred to the pixel on the middle of
    the display; the pen is [bg] for everything after it. *)
Theorem qr_code_square (code : QRCode) (fg bg width : Z)
    (cmds : list overlay_cmd) :
  0 < fst (get_size code) -> 0 <= width ->
  qr_code WIDTH HEIGHT get_size get_module code fg bg width = Ok cmds ->
  exists left top dot modules,
    cmds = [ OSetPen fg;
             ORectangle left top (dot * fst (get_size code))
                        (dot * snd (get_size code));
             OSetPen bg ] ++ modules /\
    (forall c, In c modules -> exists x y sz, c = ORectangle x y sz sz) /\
    0 <= dot /\
    width - fst (get_size code) < dot * fst (get_size code) <= width /\
    0 <= (left + dot * fst (get_size code) - WIDTH / 2) - (WIDTH / 2 - left)
      <= 1 /\
    0 <= (top + dot * snd (get_size code) - HEIGHT / 2) - (HEIGHT / 2 - top)
      <= 1.
Proof.
  unfold qr_code, py_floordiv. destruct (get_size code) as [w h].
  cbn [fst snd]. intros Hw Hwidth.
  destruct (w =? 0) eqn:E0; [lia|]. intros [= <-].
  eexists _, _, (width / w), _. split; [reflexivity|].
  split.
  { intros c Hc. apply in_module_rects in Hc as (x & y & _ & _ & _ & ->).
    now eexists _, _, _. }
  pose proof (Z.div_mod width w ltac:(lia)) as Hdm.
  pose proof (Z.mod_pos_bound width w Hw) as Hmod.
  assert (Hdot : 0 <= width / w) by (apply Z.div_pos; lia).
  split; [exact Hdot|]. split; [nia|].
  split.
  - pose proof (Z.div_mod (width / w * w) 2 ltac:(lia)).
    pose proof (Z.mod_pos_bound (width / w * w) 2 ltac:(lia)). lia.
  - pose proof (Z.div_mod (width / w * h) 2 ltac:(lia)).
    pose proof (Z.mod_pos_bound (width / w * h) 2 ltac:(lia)). lia.
Qed.

(** The modules of the QR code: after the background, one square is
    drawn for each set module of the [w] by [h] grid and nothing else;
    the square of module [(x, y)] is [dot] wide at
    [(left + x * dot, top + y * dot)] and lies inside the background
    rectangle. *)
Theorem qr_code_modules (code : QRCode) (fg bg width : Z)
    (cmds : list overlay_cmd) :
  0 < fst (get_size code) -> 0 <= width ->
  qr_code WIDTH HEIGHT get_size get_module code fg bg width = Ok cmds ->
  exists left top dot bw bh,
    firstn 3 cmds = [OSetPen fg; ORectangle left top bw bh; OSetPen bg] /\
    (forall c, In c (skipn 3 cmds) <->
       exists x y,
         0 <= x < fst (get_size code) /\ 0 <= y < snd (get_size code) /\
         get_module code x y = true /\
         c = ORectangle (left + x * dot) (top + y * dot) dot dot) /\
    (forall x y,
       0 <= x < fst (get_size code) -> 0 <= y < snd (get_size code) ->
       left <= left + x * dot /\ left + x * dot + dot <= left + bw /\
       top <= top + y * dot /\ top + y * dot + dot <= top + bh).
Proof.
  unfold qr_code, py_floordiv. destruct (get_size code) as [w h].
  cbn [fst snd]. intros Hw Hwidth.
  destruct (w =? 0) eqn:E0; [lia|]. intros [= <-].
  eexists _, _, (width / w), _, _. split; [reflexivity|].
  assert (Hdot : 0 <= width / w) by (apply Z.div_pos; lia).
  split.
  - intros c. cbn [skipn app]. split.
    + intros Hc. apply in_module_rects in Hc as (x & y & Hx & Hy & Hm & ->).
      exists x, y. split; [lia|]. split; [lia|]. split; auto.
    + intros (x & y & Hx & Hy & Hm & ->). apply in_module_rects.
      exists x, y. split; [lia|]. split; [lia|]. split; auto.
  - intros x y Hx Hy. nia.
Qed.

End OverlayFacts.

Lemma qr_code_square_witness :
  exists cmds,
    qr_code 320 240 (fun _ => (21, 21)) (fun _ x y => Z.even (x + y))
      {| qr_text := JStr "https://example.com" |} 1 0 200 = Ok cmds /\
    nth_error cmds 1 = Some (ORectangle 66 26 189 189).
Proof.
  set (size := fun _ : QRCode => (21, 21)).
  set (module := fun (_ : QRCode) x y => Z.even (x + y)).
  set (code := {| qr_text := JStr "https://example.com" |}).
  assert (E : exists cmds, qr_code 320 240 size module code 1 0 200 = Ok cmds)
    by (eexists; reflexivity).
  destruct E as [cmds E]. exists cmds. split; [exact E|].
  assert (Hw : 0 < fst (size code)) by (cbn; lia).
  destruct (qr_code_square 320 240 size module code 1 0 200 cmds
              Hw ltac:(lia) E)
    as (left & top & dot & modules & Hc & _).
  revert E. unfold qr_code. cbn. intros [= <-]. reflexivity.
Defined.

Lemma qr_code_division_witness :
  qr_code 320 240 (fun _ => (0, 0)) (fun _ _ _ => false)
    {| qr_text := JStr "" |} 1 0 200 = Raise ZeroDivisionError.
Proof.
  apply (qr_code_division 320 240 (fun _ => (0, 0)) (fun _ _ _ => false)).
  reflexivity.
Defined.

Lemma qr_code_modules_witness :
  exists cmds,
    qr_code 320 240 (fun _ => (2, 2)) (fun _ x y => x =? y)
      {| qr_text := JStr "a" |} 1 0 200 = Ok cmds /\
    skipn 3 cmds = [ORectangle 60 20 100 100; ORectangle 160 120 100 100].
Proof.
  set (size := fun _ : QRCode => (2, 2)).
  set (module := fun (_ : QRCode) x y => x =? y).
  set (code := {| qr_text := JStr "a" |}).
  assert (E : exists cmds, qr_code 320 240 size module code 1 0 200 = Ok cmds)
    by (eexists; reflexivity).
  destruct E as [cmds E]. exists cmds. split; [exact E|].
  assert (Hw : 0 < fst (size code)) by (cbn; lia).
  destruct (qr_code_modules 320 240 size module code 1 0 200 cmds
              Hw ltac:(lia) E) as (l & t & d & bw & bh & _).
  revert E. unfold qr_code. cbn. intros [= <-]. reflexivity.
Defined.

(** ** Frame rate and backlight *)

(** The frame rate shown: the division raises when two iterations
    start in the same millisecond; it is between 0 and 1000 when the
    clock has advanced, and negative when the clock has gone back. *)
Theorem frame_rate_cases (now prev : Z) :
  (now = prev -> frame_rate now prev = Raise ZeroDivisionError) /\
  (prev < now ->
   exists fps, frame_rate now prev = Ok fps /\ 0 <= fps <= 1000 /\
               fps * (now - prev) <= 1000 < (fps + 1) * (now - prev)) /\
  (now < prev ->
   exists fps, frame_rate now prev = Ok fps /\ -1000 <= fps < 0).
Proof.
  unfold frame_rate, py_floordiv. split; [|split].
  - intros ->. now rewrite Z.sub_diag.
  - intros H. destruct (now - prev =? 0) eqn:E; [lia|].
    eexists. split; [reflexivity|].
    pose proof (Z.div_mod 1000 (now - prev) ltac:(lia)).
    pose proof (Z.mod_pos_bound 1000 (now - prev) ltac:(lia)).
    assert (0 <= 1000 / (now - prev)) by (apply Z.div_pos; lia).
    nia.
  - intros H. destruct (now - prev =? 0) eqn:E; [lia|].
    eexists. split; [reflexivity|].
    pose proof (Z.div_mod 1000 (now - prev) ltac:(lia)).
    pose proof (Z.mod_neg_bound 1000 (now - prev) ltac:(lia)).
    nia.
Qed.

Lemma frame_rate_cases_witness :
  frame_rate 1016 1000 = Ok 62 /\
  frame_rate 7 7 = Raise ZeroDivisionError /\
  frame_rate 0 3 = Ok (-334).
Proof.
  destruct (frame_rate_cases 7 7) as [Hz _].
  split; [reflexivity|]. split; [exact (Hz eq_refl)|reflexivity].
Defined.

(** The backlight never gets darker when the ambient light gets
    brighter. *)
Theorem backlight_level_monotone (raw1 raw2 : Z) :
  raw1 <= raw2 -> (backlight_level raw1 <= backlight_level raw2)%Q.
Proof.
  intros H. unfold backlight_level. rewrite !py_min_Qmin.
  apply Qplus_le_r. apply Q.min_le_compat_l.
  unfold Qdiv. apply Qmult_le_compat_r; [|discriminate].
  now rewrite <- Zle_Qle.
Qed.

Lemma backlight_level_monotone_witness :
  (backlight_level 1000 <= backlight_level 2000)%Q.
Proof. apply backlight_level_monotone. lia. Defined.

(** ** The whole loop body *)

Lemma last_cons {A} (l : list A) :
  forall a d : A, List.last (a :: l) d = List.last l a.
Proof.
  induction l as [|b l IH]; intros a d; [reflexivity|].
  change (List.last (a :: b :: l) d) with (List.last (b :: l) d).
  now rewrite !IH.
Qed.

Section MainLoopFacts.

Variables WIDTH HEIGHT : Z.
Variable measure_text : string -> Z -> Z -> Z.
Variable get_size : QRCode -> Z * Z.
Variable get_module : QRCode -> Z -> Z -> bool.

(** The overlay is drawn when the title and subtitle are strings, the
    QR code has modules, and the clock has moved since [prev] if the
    frame rate is shown. *)
Lemma draw_overlay_ok (title sub : string) (qr : QRCode) (s : state)
    (now prev : Z) :
  fst (get_size qr) <> 0 ->
  (show_fps s = true -> now <> prev) ->
  exists o,
    draw_overlay WIDTH HEIGHT measure_text get_size get_module
      (JStr title) (JStr sub) qr s now prev = Ok o /\
    (show_fps s = false -> fps o = None) /\
    (show_fps s = true -> fps o = Some (1000 / (now - prev))).
Proof.
  intros Hw Hclock. unfold draw_overlay.
  assert (Hq : exists b,
             qr_code WIDTH HEIGHT get_size get_module qr 1 0 200 = Ok b).
  { unfold qr_code, py_floordiv. destruct (get_size qr) as [w h].
    cbn [fst] in Hw. apply Z.eqb_neq in Hw. rewrite Hw.
    eexists; reflexivity. }
  destruct Hq as [b Hq]. rewrite Hq. cbn [as_text].
  destruct (show_fps s).
  - unfold frame_rate, py_floordiv.
    assert (E : (now - prev =? 0) = false)
      by (apply Z.eqb_neq; specialize (Hclock eq_refl); lia).
    rewrite E.
    destruct (show_qr s); eexists; (split; [reflexivity|]);
      (split; [discriminate|reflexivity]).
  - destruct (show_qr s); eexists; (split; [reflexivity|]);
      (split; [reflexivity|discriminate]).
Qed.

(** One pass on a consistent state goes through when [tick] is
    assigned by the time the flag is drawn and the overlay can be
    drawn. *)
Lemma loop_body_ok (title sub : string) (qr : QRCode) (s : state) (prev : Z)
    (r : reading) (tr : trace) :
  consistent s ->
  tick s <> None \/
  (if button_a (controls r) then mode s = Pause else mode s = Run) ->
  fst (get_size qr) <> 0 ->
  now r <> prev ->
  exists s' o tr',
    loop_body WIDTH HEIGHT measure_text get_size get_module
      (JStr title) (JStr sub) qr s prev r tr = Ok (s', now r, o, tr') /\
    consistent s' /\ tick s' <> None.
Proof.
  intros Hs Htick Hw Hclock.
  destruct (poll_controls_step s (controls r) tr Hs)
    as (s1 & tr1 & E & Hs1 & Hm & _ & Ht & _).
  assert (Ht1 : exists t, tick s1 = Some t).
  { rewrite Ht, Hm. destruct Htick as [Hn | Ha].
    - destruct (button_a (controls r)), (mode s), (tick s); eauto;
        congruence.
    - destruct (button_a (controls r)); rewrite Ha; eauto. }
  destruct Ht1 as [t Et].
  destruct (draw_flag_ok WIDTH (inject_Z t) (strip_colors s1)
              (strip_height s1) ((tr1 ++ [SetPen 0]) ++ [Clear])
              (consistent_pairs s1 Hs1)) as [tr2 Ed].
  destruct (draw_overlay_ok title sub qr s1 (now r) prev Hw
              (fun _ => Hclock)) as (o & Eo & _).
  exists s1, o, ((tr2 ++ [Update]) ++
                 [SetBacklight (backlight_level (lux_u16 (controls r)))]).
  unfold loop_body, bind, ret, update_backlight.
  rewrite E. unfold emit at 1 2. rewrite Et. cbn beta iota. rewrite Ed.
  unfold lift. rewrite Eo.
  split; [reflexivity|].
  split; [exact Hs1|congruence].
Qed.

(** The passes that follow the first: [tick] is assigned. *)
Lemma main_loop_runs (title sub : string) (qr : QRCode) :
  fst (get_size qr) <> 0 ->
  forall (readings : list reading) (s : state) (prev : Z) (tr : trace),
    consistent s -> tick s <> None -> clock_moves prev readings ->
    exists s' os tr',
      main_loop WIDTH HEIGHT measure_text get_size get_module
        (JStr title) (JStr sub) qr s prev readings tr
      = Ok (s', List.last (map now readings) prev, os, tr') /\
      consistent s' /\ tick s' <> None /\ length os = length readings.
Proof.
  intros Hw. induction readings as [|r readings IH];
    intros s prev tr Hs Ht Hclock.
  - exists s, [], tr. split; [reflexivity|]. split; [exact Hs|].
    split; [exact Ht|reflexivity].
  - destruct Hclock as [Hr Hclock].
    destruct (loop_body_ok title sub qr s prev r tr Hs (or_introl Ht) Hw Hr)
      as (s1 & o & tr1 & E & Hs1 & Ht1).
    destruct (IH s1 (now r) tr1 Hs1 Ht1 Hclock)
      as (s2 & os & tr2 & E2 & Hs2 & Ht2 & Hlen).
    exists s2, (o :: os), tr2. cbn [main_loop]. unfold bind at 1. rewrite E.
    unfold bind at 1. rewrite E2. unfold ret.
    split; [|split; [exact Hs2|split; [exact Ht2|cbn; now rewrite Hlen]]].
    do 3 f_equal. cbn [map]. now rewrite last_cons.
Qed.

(** The whole loop does not raise: from the state that [startup]
    leaves, with a title and a subtitle that are strings and a QR code
    that has modules, any number of passes go through, whatever the
    buttons and the light sensor read, provided button A is not
    pressed in the first pass and the clock at the top of every pass
    differs from the one of the pass before ([prev], at first).  The
    strip table stays the one of the current flag, [tick] stays
    assigned and [prev] ends as the last clock read. *)
Theorem main_loop_ok (config : gmap string json) (f : Z)
    (title sub : string) (qr : QRCode) (s0 : state) (tr tr0 : trace)
    (prev : Z) (r : reading) (readings : list reading) :
  load_config config = (f, JStr title, JStr sub, qr) ->
  startup config tr = Ok (s0, tr0) ->
  fst (get_size qr) <> 0 ->
  button_a (controls r) = false ->
  clock_moves prev (r :: readings) ->
  exists s' os tr',
    main_loop WIDTH HEIGHT measure_text get_size get_module
      (JStr title) (JStr sub) qr s0 prev (r :: readings) tr0
    = Ok (s', List.last (map now (r :: readings)) prev, os, tr') /\
    consistent s' /\ tick s' <> None /\
    length os = length (r :: readings).
Proof.
  intros _ Hstart Hw Ha [Hr Hclock].
  destruct (startup_consistent config tr)
    as (s & tr1 & E & Hs & Hm & _).
  rewrite E in Hstart. injection Hstart as <- <-.
  destruct (loop_body_ok title sub qr s prev r tr1 Hs) as
    (s1 & o & tr2 & E1 & Hs1 & Ht1); [right; now rewrite Ha|exact Hw|exact Hr|].
  destruct (main_loop_runs title sub qr Hw readings s1 (now r) tr2 Hs1 Ht1
              Hclock) as (s2 & os & tr3 & E2 & Hs2 & Ht2 & Hlen).
  exists s2, (o :: os), tr3. cbn [main_loop]. unfold bind at 1. rewrite E1.
  unfold bind at 1. rewrite E2. unfold ret.
  split; [|split; [exact Hs2|split; [exact Ht2|cbn; now rewrite Hlen]]].
  do 3 f_equal. cbn [map]. now rewrite last_cons.
Qed.

(** With the frame rate shown, a pass that reads the clock of the pass
    before raises [ZeroDivisionError]. *)
Lemma loop_body_same_clock (title sub : string) (qr : QRCode) (s : state)
    (r : reading) (tr : trace) :
  consistent s -> tick s <> None ->
  xorb (show_fps s) (button_c (controls r)) = true ->
  fst (get_size qr) <> 0 ->
  loop_body WIDTH HEIGHT measure_text get_size get_module
    (JStr title) (JStr sub) qr s (now r) r tr = Raise ZeroDivisionError.
Proof.
  intros Hs Htick Hfps Hw.
  destruct (poll_controls_step s (controls r) tr Hs)
    as (s1 & tr1 & E & Hs1 & Hm & _ & Ht & Hqr & Hf).
  assert (Ht1 : exists t, tick s1 = Some t).
  { rewrite Ht. destruct (mode s1), (tick s); eauto; congruence. }
  destruct Ht1 as [t Et].
  destruct (draw_flag_ok WIDTH (inject_Z t) (strip_colors s1)
              (strip_height s1) ((tr1 ++ [SetPen 0]) ++ [Clear])
              (consistent_pairs s1 Hs1)) as [tr2 Ed].
  unfold loop_body, bind, ret.
  rewrite E. unfold emit at 1 2. rewrite Et. cbn beta iota. rewrite Ed.
  unfold lift, draw_overlay. rewrite Hf, Hfps.
  unfold frame_rate, py_floordiv. rewrite Z.sub_diag. cbn [Z.eqb].
  destruct (show_qr s1).
  - unfold qr_code, py_floordiv. destruct (get_size qr) as [w h].
    cbn [fst] in Hw. apply Z.eqb_neq in Hw. rewrite Hw. reflexivity.
  - reflexivity.
Qed.

End MainLoopFacts.

Lemma main_loop_ok_witness :
  exists s0 tr0 s' os tr',
    startup ∅ [] = Ok (s0, tr0) /\
    main_loop 320 240 (fun text scale _ => 8 * scale * Z.of_nat (String.length text))
      (fun _ => (21, 21)) (fun _ x y => Z.even (x + y))
      (JStr "Lorem") (JStr "Ipsum edit") {| qr_text := JStr "https://example.com" |}
      s0 4
      [MkReading 5 (MkInputs false true true true false 10 500);
       MkReading 30 (MkInputs true false true false true 31 9000)] tr0
    = Ok (s', 30, os, tr') /\ tick s' <> None /\ length os = 2%nat.
Proof.
  assert (E : exists s0 tr0, startup ∅ [] = Ok (s0, tr0))
    by (eexists _, _; lazy; reflexivity).
  destruct E as (s0 & tr0 & E).
  destruct (main_loop_ok 320 240
              (fun text scale _ => 8 * scale * Z.of_nat (String.length text))
              (fun _ => (21, 21)) (fun _ x y => Z.even (x + y))
              ∅ 0 "Lorem" "Ipsum edit"
              {| qr_text := JStr "https://example.com" |} s0 [] tr0 4
              (MkReading 5 (MkInputs false true true true false 10 500))
              [MkReading 30 (MkInputs true false true false true 31 9000)])
    as (s' & os & tr' & Hrun & _ & Ht & Hlen).
  - reflexivity.
  - exact E.
  - cbn. lia.
  - reflexivity.
  - cbn. lia.
  - exists s0, tr0, s', os, tr'. split; [exact E|].
    split; [exact Hrun|]. split; assumption.
Defined.

(** * The generator and the offsets in floating point *)

(** ** However the numbers add and compare, a finished run ends with
    a value above [stop] and then [stop] *)

Section NumberGeneratorFacts.

Variable num : Type.
Variable add : num -> num -> num.
Variable gt : num -> num -> bool.

Lemma num_loop_ends (stop step : num) (fuel : nat) :
  forall (x : num) (l : list num),
    num_collect num add gt fuel (MkNumGen AtYield104 x stop step) = Some l ->
    exists pre y, x :: l = pre ++ [y; stop] /\ gt y stop = true.
Proof.
  induction fuel as [|fuel IH]; intros x l; cbn [num_collect];
    [discriminate|].
  unfold num_next; cbn [n_pc n_x n_stop n_step].
  destruct (gt x stop) eqn:Eg.
  - destruct fuel as [|fuel']; cbn [num_collect]; [discriminate|].
    unfold num_next; cbn [n_pc]. intros [= <-].
    exists [], x. split; [reflexivity|exact Eg].
  - destruct (num_collect num add gt fuel
                (MkNumGen AtYield104 (add x step) stop step))
      as [l'|] eqn:El; [|discriminate].
    intros [= <-]. destruct (IH _ _ El) as (pre & y & Hl & Hy).
    exists (x :: pre), y. split; [|exact Hy]. cbn [app]. now rewrite Hl.
Qed.

Lemma num_frange_ends (start stop step : num) (fuel : nat) (l : list num) :
  num_collect num add gt fuel (num_frange start stop step) = Some l ->
  exists pre y, l = pre ++ [y; stop] /\ gt y stop = true.
Proof.
  destruct fuel as [|[|fuel]]; cbn [num_collect]; try discriminate.
  unfold num_frange, num_next; cbn [n_pc n_x n_stop n_step].
  destruct (num_collect num add gt fuel
              (MkNumGen AtYield104 (add start step) stop step))
    as [l'|] eqn:El; [|discriminate].
  intros [= <-]. destruct (num_loop_ends _ _ _ _ _ El) as (pre & y & Hl & Hy).
  exists (start :: pre), y. split; [|exact Hy]. cbn [app]. now rewrite Hl.
Qed.

End NumberGeneratorFacts.

(** ** On binary64 floats the generator can run forever *)

(** At 1e16 the step 1.0 is lost in the rounding of the sum. *)
Lemma float_step_absorbed :
  PrimFloat.add 10000000000000000 1 = 10000000000000000%float /\
  float_gt 10000000000000000 10000000000000004 = false.
Proof. split; vm_compute; reflexivity. Qed.

Lemma float_loop_runs_on (fuel : nat) :
  float_collect fuel
    (MkNumGen AtYield104 10000000000000000%float 10000000000000004%float
              1%float) = None.
Proof.
  induction fuel as [|fuel IH]; [reflexivity|].
  unfold float_collect in *. cbn [num_collect].
  unfold num_next; cbn [n_pc n_x n_stop n_step].
  destruct float_step_absorbed as [Hadd Hgt]. rewrite Hgt, Hadd.
  now rewrite IH.
Qed.

Lemma float_frange_runs_on (fuel : nat) :
  float_collect fuel
    (num_frange 10000000000000000%float 10000000000000004%float 1%float)
  = None.
Proof.
  destruct fuel as [|[|fuel]]; try reflexivity.
  unfold float_collect. cbn [num_collect].
  unfold num_frange, num_next; cbn [n_pc n_x n_stop n_step].
  destruct float_step_absorbed as [Hadd _]. rewrite Hadd.
  pose proof (float_loop_runs_on fuel) as H. unfold float_collect in H.
  now rewrite H.
Qed.

(** C9, as the specification words it, fails on the floats that the
    program passes: [frange(1e16, 1e16 + 4, 1.0)] has a positive step
    and [start <= stop], and never stops, because [1e16 + 1.0] is
    [1e16] again. *)
Lemma frange_claim_float_fails :
  (PrimFloat.ltb 0 1 = true /\
   PrimFloat.leb 10000000000000000 10000000000000004 = true /\
   forall fuel,
     float_collect fuel
       (num_frange 10000000000000000%float 10000000000000004%float 1%float)
     = None) /\
  ~ frange_claim_float.
Proof.
  split.
  - split; [vm_compute; reflexivity|]. split; [vm_compute; reflexivity|].
    exact float_frange_runs_on.
  - intros Hclaim.
    destruct (Hclaim 10000000000000000%float 10000000000000004%float 1%float)
      as (fuel & pre & y & E & _); try (vm_compute; reflexivity).
    rewrite float_frange_runs_on in E. discriminate.
Qed.

(** The call of the program, [frange(0, FOUR_PI, FOUR_PI / (COLS + 1))],
    does stop on binary64: it yields sixteen values, the last two being
    a value above [FOUR_PI] and [FOUR_PI]. *)
Lemma float_frange_call_stops :
  exists pre y,
    float_collect 17 (num_frange 0%float FOUR_PI_float step_float)
    = Some (pre ++ [y; FOUR_PI_float]) /\
    length pre = 14%nat /\ float_gt y FOUR_PI_float = true.
Proof.
  assert (E : exists l,
             float_collect 17 (num_frange 0%float FOUR_PI_float step_float)
             = Some l) by (vm_compute; eexists; reflexivity).
  destruct E as [l E].
  destruct (num_frange_ends _ _ _ _ _ _ _ _ E) as (pre & y & -> & Hy).
  exists pre, y. split; [exact E|]. split; [|exact Hy].
  assert (Hlen : option_map (@length float)
                   (float_collect 17
                      (num_frange 0%float FOUR_PI_float step_float))
                 = Some 16%nat) by (vm_compute; reflexivity).
  rewrite E in Hlen. cbn [option_map] in Hlen. injection Hlen as Hlen.
  rewrite length_app in Hlen. cbn [length] in Hlen. lia.
Qed.

(** ** With rounding, the generator stops when the step is not lost *)

Lemma Rgtb_true (a b : R) : Rgtb a b = true <-> (b < a)%R.
Proof.
  unfold Rgtb. destruct (Rlt_dec b a); split; intros H;
    try reflexivity; try assumption; try discriminate. contradiction.
Qed.

Lemma Rabs_both (a b : R) : (Rabs a <= b)%R -> (- b <= a <= b)%R.
Proof.
  intros H. unfold Rabs in H. destruct (Rcase_abs a); lra.
Qed.

Section RoundedGenerator.

Variable rnd : R -> R.
Variables u B M : R.
Variables stop step : R.

Hypothesis u_pos : (0 <= u)%R.
Hypothesis rnd_err :
  forall z, (Rabs z <= B)%R -> (Rabs (rnd z - z) <= u * (Rabs z + 1))%R.
Hypothesis stop_bound : (Rabs stop <= M)%R.
Hypothesis step_pos : (0 < step)%R.
Hypothesis in_range : (M + step <= B)%R.
Hypothesis step_kept : (2 * u * (M + step + 1) <= step)%R.

(** A step from a value between [-M] and [M] gains at least half the
    step. *)
Lemma rounded_step_gains (x : R) :
  (- M <= x <= M)%R -> (x + step / 2 <= fl_add rnd x step)%R.
Proof.
  intros Hx. unfold fl_add.
  assert (Hz : (Rabs (x + step) <= M + step)%R) by (apply Rabs_le; lra).
  assert (HzB : (Rabs (x + step) <= B)%R) by lra.
  pose proof (Rabs_both _ _ (rnd_err _ HzB)) as [Hlo _].
  assert (u * (Rabs (x + step) + 1) <= u * (M + step + 1))%R
    by (apply Rmult_le_compat_l; lra).
  lra.
Qed.

Lemma rounded_loop_stops (n : nat) :
  forall x : R,
    (- M <= x)%R -> (stop < x + INR n * (step / 2))%R ->
    exists fuel l,
      collect_fl rnd fuel (MkNumGen AtYield104 x stop step) = Some l.
Proof.
  assert (Hexit : forall x, (stop < x)%R ->
            exists fuel l,
              collect_fl rnd fuel (MkNumGen AtYield104 x stop step)
              = Some l).
  { intros x Hx. exists 2%nat, [stop]. unfold collect_fl.
    cbn [num_collect]. unfold num_next; cbn [n_pc n_x n_stop n_step].
    apply Rgtb_true in Hx. now rewrite Hx. }
  induction n as [|n IH]; intros x Hlo Hn.
  - apply Hexit. cbn [INR] in Hn. lra.
  - destruct (Rgtb x stop) eqn:Eg; [apply Hexit; now apply Rgtb_true|].
    assert (Hle : (x <= stop)%R).
    { destruct (Rle_dec x stop) as [H|H]; [exact H|].
      assert (Rgtb x stop = true) by (apply Rgtb_true; lra). congruence. }
    pose proof (Rabs_both _ _ stop_bound) as Hstop.
    pose proof (rounded_step_gains x ltac:(lra)) as Hgain.
    destruct (IH (fl_add rnd x step)) as (fuel & l & E).
    + lra.
    + rewrite S_INR in Hn. lra.
    + exists (S fuel), (fl_add rnd x step :: l). unfold collect_fl in *.
      cbn [num_collect]. unfold num_next; cbn [n_pc n_x n_stop n_step].
      now rewrite Eg, E.
Qed.

Lemma rounded_frange_stops (start : R) :
  (Rabs start <= M)%R ->
  exists fuel l, collect_fl rnd fuel (num_frange start stop step) = Some l.
Proof.
  intros Hstart. pose proof (Rabs_both _ _ Hstart) as Hs.
  pose proof (rounded_step_gains start Hs) as Hgain.
  set (x1 := fl_add rnd start step) in *.
  destruct (archimed ((stop - x1) / (step / 2))) as [Hup _].
  set (n := Z.to_nat (Z.max 0 (up ((stop - x1) / (step / 2))))).
  assert (Hn : (stop < x1 + INR n * (step / 2))%R).
  { assert (Hq : ((stop - x1) / (step / 2) < INR n)%R).
    { unfold n. rewrite INR_IZR_INZ, Z2Nat.id by lia.
      eapply Rlt_le_trans; [exact Hup|]. apply IZR_le. lia. }
    assert (Hd : (0 < step / 2)%R) by lra.
    apply (Rmult_lt_compat_r _ _ _ Hd) in Hq.
    unfold Rdiv at 1 in Hq. rewrite Rmult_assoc, Rinv_l in Hq by lra. lra. }
  destruct (rounded_loop_stops n x1 ltac:(lra) Hn) as (fuel & l & E).
  exists (S (S fuel)), (start :: x1 :: l). unfold collect_fl in *.
  cbn [num_collect]. unfold num_frange, num_next;
    cbn [n_pc n_x n_stop n_step].
  fold x1. now rewrite E.
Qed.

End RoundedGenerator.

(** C9, as the code has it.  With a positive step and [start <= stop]:
    in exact arithmetic (Python [int]s) [frange] stops after finitely
    many values; in floating point with unit roundoff [u] it stops
    whenever the step is not lost in rounding,
    [2 * u * (M + step + 1) <= step] for a bound [M] on [start] and
    [stop]; and in every arithmetic a run that has stopped ends with a
    value above [stop] followed by [stop] itself. *)
Theorem frange_stops_and_ends :
  (forall start stop step : Q,
      (0 < step)%Q -> (start <= stop)%Q ->
      exists fuel pre y,
        collect fuel (frange start stop step) = Some (pre ++ [y; stop]) /\
        (stop < y)%Q) /\
  (forall (rnd : R -> R) (u B M start stop step : R),
      (0 <= u)%R ->
      (forall z, (Rabs z <= B)%R ->
                 (Rabs (rnd z - z) <= u * (Rabs z + 1))%R) ->
      (Rabs start <= M)%R -> (Rabs stop <= M)%R -> (M + step <= B)%R ->
      (2 * u * (M + step + 1) <= step)%R ->
      (0 < step)%R -> (start <= stop)%R ->
      exists fuel pre y,
        collect_fl rnd fuel (num_frange start stop step)
        = Some (pre ++ [y; stop]) /\
        (stop < y)%R) /\
  (forall (num : Type) (add : num -> num -> num) (gt : num -> num -> bool)
          (start stop step : num) (fuel : nat) (l : list num),
      num_collect num add gt fuel (num_frange start stop step) = Some l ->
      exists pre y, l = pre ++ [y; stop] /\ gt y stop = true).
Proof.
  split; [|split].
  - intros start stop step Hstep _.
    destruct (enough_steps stop step (start + step)%Q Hstep) as [n Hn].
    destruct (frange_loop_stops stop step n _ Hn)
      as (fuel & l & pre & y & Hc & Hl & Hy).
    exists (S (S fuel)), (start :: pre), y. split; [|exact Hy].
    cbn [collect frange next g_pc g_x g_stop g_step].
    rewrite Hc. now rewrite Hl.
  - intros rnd u B M start stop step Hu Hrnd Hstart Hstop HB Hkept Hstep _.
    destruct (rounded_frange_stops rnd u B M stop step Hu Hrnd Hstop Hstep
                HB Hkept start Hstart) as (fuel & l & E).
    unfold collect_fl in E.
    destruct (num_frange_ends _ _ _ _ _ _ _ _ E) as (pre & y & -> & Hy).
    exists fuel, pre, y. split; [exact E|]. now apply Rgtb_true.
  - intros num add gt start stop step fuel l E.
    exact (num_frange_ends _ _ _ _ _ _ _ _ E).
Qed.

Lemma frange_stops_and_ends_witness :
  (exists fuel pre y,
      collect fuel (frange 0 10 3) = Some (pre ++ [y; 10%Q]) /\ (10 < y)%Q) /\
  (exists fuel pre y,
      collect_fl (fun z => z) fuel (num_frange 0%R 10%R 3%R)
      = Some (pre ++ [y; 10%R]) /\ (10 < y)%R).
Proof.
  destruct frange_stops_and_ends as (Hexact & Hfloat & _).
  split.
  - apply Hexact; [reflexivity|discriminate].
  - apply (Hfloat (fun z => z) 0%R 100%R 10%R).
    + lra.
    + intros z _. replace (z - z)%R with 0%R by ring. rewrite Rabs_R0.
      pose proof (Rabs_pos z). lra.
    + rewrite Rabs_R0. lra.
    + rewrite Rabs_pos_eq; lra.
    + lra.
    + lra.
    + lra.
    + lra.
Defined.

(** ** The offsets in a floating-point arithmetic *)

Lemma sin_abs_le (z : R) : (Rabs (sin z) <= Rabs z)%R.
Proof.
  assert (Hpos : forall x, (0 < x)%R -> (- x <= sin x <= x)%R).
  { intros x Hx. pose proof (sin_lt_x x Hx). split; [|lra].
    destruct (Rle_dec x 1) as [H1 | H1].
    - pose proof PI_above_3. pose proof (sin_ge_0 x ltac:(lra) ltac:(lra)).
      lra.
    - pose proof (SIN_bound x). lra. }
  destruct (Rtotal_order z 0) as [Hz | [-> | Hz]].
  - destruct (Hpos (- z)%R ltac:(lra)) as [H1 H2]. rewrite sin_neg in H1, H2.
    rewrite (Rabs_left z Hz). apply Rabs_le. lra.
  - rewrite sin_0, Rabs_R0. lra.
  - destruct (Hpos z Hz). rewrite (Rabs_pos_eq z) by lra. apply Rabs_le. lra.
Qed.

Lemma sin_lipschitz (x y : R) : (Rabs (sin x - sin y) <= Rabs (x - y))%R.
Proof.
  rewrite form4, Rabs_mult, Rabs_mult.
  pose proof (COS_bound ((x + y) / 2)) as Hc.
  assert (Hcos : (Rabs (cos ((x + y) / 2)) <= 1)%R) by (apply Rabs_le; lra).
  pose proof (sin_abs_le ((x - y) / 2)) as Hs.
  assert (Hhalf : (Rabs ((x - y) / 2) = Rabs (x - y) / 2)%R).
  { unfold Rdiv. rewrite Rabs_mult, (Rabs_pos_eq (/ 2)) by lra. reflexivity. }
  rewrite Hhalf in Hs. rewrite (Rabs_pos_eq 2) by lra.
  pose proof (Rabs_pos (cos ((x + y) / 2))).
  pose proof (Rabs_pos (sin ((x - y) / 2))).
  pose proof (Rabs_pos (x - y)).
  nra.
Qed.

(** [int()] moves by at most 1 when its argument moves by at most 1. *)
Lemma py_int_bounds (r : R) :
  (r - 1 < IZR (py_int r) < r + 1)%R /\
  ((0 <= r)%R -> (IZR (py_int r) <= r)%R) /\
  ((r <= 0)%R -> (r <= IZR (py_int r))%R).
Proof.
  unfold py_int. destruct (Rle_dec 0 r) as [Hr | Hr].
  - destruct (base_Int_part r) as [H1 H2]. repeat split; try lra.
    intros H0. assert (r = 0)%R by lra. subst r.
    rewrite (Int_part_between 0 0) by lra. lra.
  - destruct (base_Int_part (- r)) as [H1 H2]. rewrite opp_IZR.
    repeat split; lra.
Qed.

Lemma py_int_near (p e : R) :
  (Rabs (p - e) <= 1)%R -> Z.abs (py_int p - py_int e) <= 1.
Proof.
  intros H. apply Rabs_both in H.
  destruct (py_int_bounds p) as (Hp & Hp0 & Hp1).
  destruct (py_int_bounds e) as (He & He0 & He1).
  assert (Hup : py_int p <= py_int e + 1).
  { apply Z.lt_succ_r, lt_IZR. rewrite succ_IZR, plus_IZR.
    destruct (Rle_dec 0 p) as [H0 | H0].
    - specialize (Hp0 H0). lra.
    - destruct (Rle_dec 0 e) as [H1 | H1].
      + specialize (Hp1 ltac:(lra)). 
        assert (IZR (py_int p) < 1)%R by lra.
        assert (0 <= py_int e).
        { apply Z.lt_succ_r, lt_IZR. rewrite succ_IZR. lra. }
        apply IZR_le in H3. lra.
      + specialize (He1 ltac:(lra)). lra. }
  assert (Hdown : py_int e <= py_int p + 1).
  { apply Z.lt_succ_r, lt_IZR. rewrite succ_IZR, plus_IZR.
    destruct (Rle_dec 0 e) as [H0 | H0].
    - specialize (He0 H0). lra.
    - destruct (Rle_dec 0 p) as [H1 | H1].
      + specialize (He1 ltac:(lra)).
        assert (IZR (py_int e) < 1)%R by lra.
        assert (0 <= py_int p).
        { apply Z.lt_succ_r, lt_IZR. rewrite succ_IZR. lra. }
        apply IZR_le in H3. lra.
      + specialize (Hp1 ltac:(lra)). lra. }
  lia.
Qed.

Lemma INR_bounds (k : nat) (n : Z) :
  Z.of_nat k <= n -> (0 <= INR k <= IZR n)%R.
Proof.
  intros H. rewrite INR_IZR_INZ. split; [apply (IZR_le 0)|apply IZR_le]; lia.
Qed.

Lemma Q2R_inject_Z (z : Z) : Q2R (inject_Z z) = IZR z.
Proof. unfold Q2R, inject_Z; cbn [Qnum Qden]. lra. Qed.

Lemma Q2R_Qmin (a b : Q) : Q2R (Qmin a b) = Rmin (Q2R a) (Q2R b).
Proof.
  destruct (Q.min_spec a b) as [[Hlt E] | [Hle E]]; rewrite (Qeq_eqR _ _ E).
  - apply Qlt_Rlt in Hlt. symmetry. apply Rmin_left. lra.
  - apply Qle_Rle in Hle. symmetry. now apply Rmin_right.
Qed.

Lemma Q2R_weight (j : nat) :
  Q2R (weight (S j)) = Rmin 1 (IZR (Z.of_nat j) / 12 + 2 / 10).
Proof.
  cbn [weight]. rewrite Q2R_Qmin, Q2R_plus. unfold Qdiv.
  rewrite Q2R_mult, Q2R_inject_Z.
  rewrite (Q2R_const 1 1 1), (Q2R_const (/ 12) 1 12),
    (Q2R_const (2 # 10) 2 10) by reflexivity.
  f_equal; lra.
Qed.

Lemma Q2R_angle (i : nat) :
  Q2R (angle i) = (IZR (Z.of_nat i) * (12566 / 13000))%R.
Proof.
  unfold angle. rewrite Q2R_mult, Q2R_inject_Z.
  rewrite (Q2R_const (FOUR_PI / 13) 12566 13000) by reflexivity.
  reflexivity.
Qed.

Section FloatOffsets.

Variables rnd fsin : R -> R.
Variables u B : R.
Hypothesis arith : float_arith rnd fsin u B.

Local Open Scope R_scope.

Lemma u_range : 0 <= u <= / 1048576.
Proof. apply arith. Qed.

Lemma B_range : 4096 <= B.
Proof. apply arith. Qed.

Lemma rnd_small_int (n : Z) : (-4096 <= n <= 4096)%Z -> rnd (IZR n) = IZR n.
Proof. apply arith. Qed.

(** Rounding a result of magnitude at most [M] moves it by at most
    [u * (M + 1)]. *)
Lemma rnd_close (z M : R) :
  Rabs z <= M -> M <= B -> z - u * (M + 1) <= rnd z <= z + u * (M + 1).
Proof.
  intros Hz HM. destruct arith as (_ & _ & Herr & _).
  pose proof (Rabs_both _ _ (Herr z ltac:(lra))) as Hr.
  pose proof u_range.
  assert (u * (Rabs z + 1) <= u * (M + 1))
    by (apply Rmult_le_compat_l; lra).
  lra.
Qed.

Lemma fsin_close (a : R) : Rabs a <= B -> sin a - u <= fsin a <= sin a + u.
Proof.
  intros Ha. destruct arith as (_ & _ & _ & _ & Hsin).
  pose proof (Rabs_both _ _ (Hsin a Ha)). lra.
Qed.

Lemma u_times (x : R) : 0 <= x -> 0 <= u * x <= x / 1048576.
Proof. intros Hx. pose proof u_range. nra. Qed.

Lemma FOUR_PI_fl_close :
  12566 / 1000 - 14 * u <= FOUR_PI_fl rnd <= 12566 / 1000 + 14 * u.
Proof.
  unfold FOUR_PI_fl, fl_lit.
  rewrite (Q2R_const FOUR_PI 12566 1000) by reflexivity.
  pose proof B_range.
  pose proof (rnd_close (12566 / 1000) 13 ltac:(apply Rabs_le; lra)
                ltac:(lra)).
  lra.
Qed.

Lemma step_fl_close :
  12566 / 13000 - 4 * u <= step_fl rnd <= 12566 / 13000 + 4 * u.
Proof.
  unfold step_fl, fl_div, fl_int. change (COLS + 1)%Z with 13%Z.
  rewrite (rnd_small_int 13) by lia.
  pose proof FOUR_PI_fl_close as HF. pose proof u_range. pose proof B_range.
  pose proof (rnd_close (FOUR_PI_fl rnd / 13) 1
                ltac:(apply Rabs_le; lra) ltac:(lra)).
  lra.
Qed.

(** After [k] steps the running sum is [k * 12.566 / 13], up to
    [20 * k * u]. *)
Lemma X_fl_close (k : nat) :
  (k <= 12)%nat ->
  INR k * (12566 / 13000) - 20 * INR k * u <= X_fl rnd k
    <= INR k * (12566 / 13000) + 20 * INR k * u.
Proof.
  induction k as [|k IH]; intros Hk.
  - cbn [X_fl INR]. lra.
  - specialize (IH ltac:(lia)). rewrite S_INR. cbn [X_fl]. unfold fl_add.
    pose proof step_fl_close as Hs. pose proof u_range. pose proof B_range.
    assert (Hk11 : 0 <= INR k <= 11) by (apply INR_bounds; lia).
    assert (Hku : 0 <= INR k * u <= 11 * u) by nra.
    pose proof (rnd_close (X_fl rnd k + step_fl rnd) 13
                  ltac:(apply Rabs_le; lra) ltac:(lra)).
    lra.
Qed.

(** The generator does not stop before the thirteenth value. *)
Lemma X_fl_below (k : nat) :
  (k <= 11)%nat -> Rgtb (X_fl rnd k) (FOUR_PI_fl rnd) = false.
Proof.
  intros Hk. pose proof (X_fl_close k ltac:(lia)) as HX.
  pose proof FOUR_PI_fl_close. pose proof u_range.
  assert (Hk11 : 0 <= INR k <= 11) by (apply INR_bounds; lia).
  assert (Hku : 0 <= INR k * u <= 11 * u) by nra.
  destruct (Rgtb (X_fl rnd k) (FOUR_PI_fl rnd)) eqn:E; [|reflexivity].
  apply Rgtb_true in E. lra.
Qed.

Lemma zip_from_loop (ws : list R) :
  forall k : nat,
    (k + length ws <= 12)%nat ->
    num_zip R (fl_add rnd) Rgtb
      (MkNumGen AtYield104 (X_fl rnd k) (FOUR_PI_fl rnd) (step_fl rnd)) ws
    = imap (fun j w => (X_fl rnd (S k + j), w)) ws.
Proof.
  induction ws as [|w ws IH]; intros k Hk; [reflexivity|].
  cbn [length] in Hk. cbn [num_zip imap].
  unfold num_next; cbn [n_pc n_x n_stop n_step].
  rewrite X_fl_below by lia.
  change (fl_add rnd (X_fl rnd k) (step_fl rnd)) with (X_fl rnd (S k)).
  rewrite IH by lia. f_equal; [now rewrite Nat.add_0_r|].
  apply imap_ext. intros j x _. unfold compose.
  now replace (S k + S j)%nat with (S (S k) + j)%nat by lia.
Qed.

Lemma WEIGHTS_fl_lookup (i : nat) :
  (i <= 12)%nat -> WEIGHTS_fl rnd !! i = Some (W_fl rnd i).
Proof.
  intros Hi.
  do 13 (destruct i as [|i]; [reflexivity|]). lia.
Qed.

Lemma samples_fl_lookup (i : nat) :
  (i <= 12)%nat ->
  samples_fl rnd !! i = Some (X_fl rnd i, W_fl rnd i).
Proof.
  intros Hi. pose proof (WEIGHTS_fl_lookup i Hi) as Hw.
  unfold samples_fl.
  assert (Hlen : length (WEIGHTS_fl rnd) = 13%nat) by reflexivity.
  destruct (WEIGHTS_fl rnd) as [|w0 [|w1 ws]]; try discriminate.
  cbn [num_zip]. unfold num_frange, num_next at 1;
    cbn [n_pc n_x n_stop n_step].
  unfold num_next at 1; cbn [n_pc n_x n_stop n_step].
  change (fl_add rnd 0 (step_fl rnd)) with (X_fl rnd 1).
  cbn [length] in Hlen. rewrite zip_from_loop by lia.
  destruct i as [|[|i]].
  - cbn in Hw |- *. injection Hw as ->. reflexivity.
  - cbn in Hw |- *. injection Hw as ->. reflexivity.
  - change ((w0 :: w1 :: ws) !! S (S i)) with (ws !! i) in Hw.
    change (imap (fun j w => (X_fl rnd (2 + j), w)) ws !! i
            = Some (X_fl rnd (S (S i)), W_fl rnd (S (S i)))).
    rewrite list_lookup_imap, Hw. reflexivity.
Qed.

(** The weights are those of the exact table, up to [7 * u]. *)
Lemma W_fl_close (i : nat) :
  (i <= 12)%nat ->
  Q2R (weight i) - 7 * u <= W_fl rnd i <= Q2R (weight i) + 7 * u /\
  0 <= W_fl rnd i <= 1.
Proof.
  intros Hi. pose proof u_range. pose proof B_range.
  destruct i as [|j].
  - cbn [W_fl weight]. unfold fl_lit.
    rewrite (Q2R_const 0 0 1) by reflexivity.
    replace (0 / 1) with (IZR 0) by lra.
    rewrite (rnd_small_int 0) by lia. lra.
  - rewrite Q2R_weight. cbn [W_fl]. unfold fl_lit, fl_add, fl_div, fl_int.
    change COLS with 12%Z.
    rewrite (rnd_small_int 12), (rnd_small_int (Z.of_nat j)) by lia.
    rewrite (Q2R_const 1 1 1), (Q2R_const (2 # 10) 2 10) by reflexivity.
    replace (1 / 1) with (IZR 1) by lra. rewrite (rnd_small_int 1) by lia.
    assert (Hj : 0 <= IZR (Z.of_nat j) <= 11).
    { split; [apply (IZR_le 0); lia | apply (IZR_le _ 11); lia]. }
    pose proof (rnd_close (IZR (Z.of_nat j) / 12) 1
                  ltac:(apply Rabs_le; lra) ltac:(lra)) as Hq.
    pose proof (rnd_close (2 / 10) 1 ltac:(apply Rabs_le; lra) ltac:(lra))
      as Hl.
    pose proof (rnd_close (rnd (IZR (Z.of_nat j) / 12) + rnd (2 / 10)) 2
                  ltac:(apply Rabs_le; lra) ltac:(lra)) as Hv.
    unfold fl_min, Rmin.
    destruct (Rlt_dec _ 1), (Rle_dec 1 _); lra.
Qed.

Section AtTick.

Variable tick : Z.
Hypothesis tick_range : Rabs (IZR tick) + 4096 <= B.

Lemma tick_real :
  Rabs (IZR tick) + 4096 <= B /\ 0 <= Rabs (IZR tick) /\
  - Rabs (IZR tick) <= IZR tick <= Rabs (IZR tick).
Proof.
  split; [exact tick_range|]. split; [apply Rabs_pos|].
  apply Rabs_both, Rle_refl.
Qed.

(** The magnitude of the tick, as an unknown [T]. *)
Ltac tick_size T HB HT0 HT :=
  destruct tick_real as (HB & HT0 & HT);
  revert HB HT0 HT; generalize (Rabs (IZR tick)); intros T HB HT0 HT.

(** [tick / 200], up to [u * (|tick| / 50 + 3)]. *)
Lemma offset_fl_close :
  IZR tick / 200 - u * (Rabs (IZR tick) / 50 + 3)
    <= fl_div rnd (fl_int rnd tick) (fl_int rnd 200)
    <= IZR tick / 200 + u * (Rabs (IZR tick) / 50 + 3).
Proof.
  unfold fl_div, fl_int. rewrite (rnd_small_int 200) by lia.
  tick_size T HB HT0 HT. pose proof u_range. pose proof B_range.
  pose proof (u_times T HT0) as HuT.
  pose proof (rnd_close (IZR tick) T
                ltac:(apply Rabs_le; lra) ltac:(lra)) as Ht.
  pose proof (rnd_close (rnd (IZR tick) / 200) (T / 100 + 1)
                ltac:(apply Rabs_le; lra) ltac:(lra)) as Hd.
  lra.
Qed.

(** The argument of the sine, up to [u * (3 * |tick| / 100 + 258)]. *)
Lemma angle_fl_close (i : nat) :
  (i <= 12)%nat ->
  let a := fl_add rnd (fl_div rnd (fl_int rnd tick) (fl_int rnd 200))
                  (X_fl rnd i) in
  let e := IZR tick / 200 + Q2R (angle i) in
  e - u * (3 * Rabs (IZR tick) / 100 + 258) <= a
    <= e + u * (3 * Rabs (IZR tick) / 100 + 258) /\
  Rabs a <= B.
Proof.
  intros Hi a e. subst a e. rewrite Q2R_angle, <- INR_IZR_INZ.
  unfold fl_add.
  pose proof offset_fl_close as Hoff. revert Hoff.
  tick_size T HB HT0 HT. intros Hoff.
  pose proof u_range. pose proof B_range.
  pose proof (u_times T HT0) as HuT.
  pose proof (X_fl_close i Hi) as HX.
  assert (Hi12 : 0 <= INR i <= 12) by (apply INR_bounds; lia).
  assert (Hiu : 0 <= INR i * u <= 12 * u) by nra.
  pose proof (rnd_close
                (fl_div rnd (fl_int rnd tick) (fl_int rnd 200) + X_fl rnd i)
                (T / 100 + 14)
                ltac:(apply Rabs_le; lra) ltac:(lra)) as Ha.
  split; [lra|]. apply Rabs_le. lra.
Qed.

(** The product that is truncated, up to [u * (|tick| / 2 + 4400)]. *)
Lemma product_fl_close (i : nat) :
  (i <= 12)%nat ->
  Rabs (product_fl rnd fsin tick i - product_exact tick i)
    <= u * (Rabs (IZR tick) / 2 + 4400).
Proof.
  intros Hi. unfold product_fl, product_exact.
  destruct (angle_fl_close i Hi) as [Ha HaB].
  set (a := fl_add rnd (fl_div rnd (fl_int rnd tick) (fl_int rnd 200))
                   (X_fl rnd i)) in *.
  set (e := IZR tick / 200 + Q2R (angle i)) in *.
  destruct (W_fl_close i Hi) as [Hw Hw01].
  set (w := W_fl rnd i) in *. set (w0 := Q2R (weight i)) in *.
  revert Ha. tick_size T HB HT0 HT. intros Ha.
  pose proof u_range. pose proof B_range.
  pose proof (u_times T HT0) as HuT.
  pose proof (fsin_close a HaB) as Hfs.
  pose proof (Rabs_both _ _ (sin_lipschitz a e)) as Hlip.
  assert (Hae : Rabs (a - e) <= u * (3 * T / 100 + 258))
    by (apply Rabs_le; lra).
  pose proof (SIN_bound e) as HSe. pose proof (SIN_bound a) as HSa.
  set (s := fsin a) in *. set (S0 := sin e) in *.
  assert (Hs : S0 - u * (3 * T / 100 + 259) <= s
               <= S0 + u * (3 * T / 100 + 259)) by lra.
  unfold fl_mul, fl_int. rewrite (rnd_small_int 15) by lia.
  pose proof (rnd_close (15 * w) 15 ltac:(apply Rabs_le; lra) ltac:(lra))
    as Hm.
  set (m := rnd (15 * w)) in *.
  assert (Hm16 : -16 <= m <= 16) by lra.
  assert (Hs2 : -2 <= s <= 2) by lra.
  assert (Hms : -32 <= m * s <= 32) by nra.
  pose proof (rnd_close (m * s) 32 ltac:(apply Rabs_le; lra) ltac:(lra))
    as Hp.
  assert (Hd : Rabs (m * s - 15 * w0 * S0)
               <= 16 * (u * (3 * T / 100 + 259)) + 121 * u).
  { replace (m * s - 15 * w0 * S0)
      with (m * (s - S0) + S0 * (m - 15 * w0)) by ring.
    eapply Rle_trans; [apply Rabs_triang|].
    rewrite !Rabs_mult.
    assert (Rabs m <= 16) by (apply Rabs_le; lra).
    assert (Rabs (s - S0) <= u * (3 * T / 100 + 259))
      by (apply Rabs_le; lra).
    assert (Rabs S0 <= 1) by (apply Rabs_le; lra).
    assert (Rabs (m - 15 * w0) <= 121 * u) by (apply Rabs_le; lra).
    pose proof (Rabs_pos m). pose proof (Rabs_pos (s - S0)).
    pose proof (Rabs_pos S0). pose proof (Rabs_pos (m - 15 * w0)).
    assert (0 <= u * (3 * T / 100 + 259)) by lra.
    nra. }
  apply Rabs_both in Hd. apply Rabs_le. lra.
Qed.

End AtTick.

End FloatOffsets.

Lemma col_offsets_fl_lookup (rnd fsin : R -> R) (u B : R) (tick : Z)
    (i : nat) :
  float_arith rnd fsin u B -> (i <= 12)%nat ->
  col_offsets_fl rnd fsin tick !! i
  = Some (py_int (product_fl rnd fsin tick i)).
Proof.
  intros HA Hi. unfold col_offsets_fl.
  rewrite list_lookup_fmap, (samples_fl_lookup rnd fsin u B HA i Hi).
  reflexivity.
Qed.

(** Exact arithmetic is a floating-point arithmetic with unit
    roundoff 0. *)
Lemma exact_arith (B : R) : (4096 <= B)%R -> float_arith (fun z => z) sin 0 B.
Proof.
  intros HB. unfold float_arith. split; [lra|]. split; [exact HB|].
  split; [|split].
  - intros z _. replace (z - z)%R with 0%R by ring. rewrite Rabs_R0. lra.
  - reflexivity.
  - intros a _. replace (sin a - sin a)%R with 0%R by ring.
    rewrite Rabs_R0. lra.
Qed.

(** C2, as the code has it.  In a floating-point arithmetic with unit
    roundoff [u], for every tick, entry [i] of the offset table is
    [int(15 * w_i * sin(tick / 200 + x_i))] as the floats compute it,
    [x_i] being the running sum of [i] steps [FOUR_PI / 13] and
    [w_0 = 0], [w_i = min(1, (i - 1) / 12 + 0.2)].  The truncated
    product is within [u * (|tick| / 2 + 4400)] of
    [15 * w_i * sin(tick / 200 + i * 12.566 / 13)]; so the entry is the
    truncation of that value or differs from it by 1, and is that
    truncation in exact arithmetic. *)
Theorem col_offsets_float (rnd fsin : R -> R) (u B : R) (tick : Z)
    (i : nat) :
  float_arith rnd fsin u B ->
  (Rabs (IZR tick) + 4096 <= B)%R -> (i <= 12)%nat ->
  col_offsets_fl rnd fsin tick !! i
    = Some (py_int (product_fl rnd fsin tick i)) /\
  (Rabs (product_fl rnd fsin tick i - product_exact tick i)
   <= u * (Rabs (IZR tick) / 2 + 4400))%R /\
  ((u * (Rabs (IZR tick) / 2 + 4400) <= 1)%R ->
   Z.abs (py_int (product_fl rnd fsin tick i) - py_int (product_exact tick i))
   <= 1) /\
  (u = 0%R ->
   py_int (product_fl rnd fsin tick i) = py_int (product_exact tick i)).
Proof.
  intros HA HB Hi.
  pose proof (product_fl_close rnd fsin u B HA tick HB i Hi) as Hclose.
  split; [now apply (col_offsets_fl_lookup rnd fsin u B)|].
  split; [exact Hclose|]. split.
  - intros Hone. apply py_int_near. lra.
  - intros Hu. rewrite Hu, Rmult_0_l in Hclose.
    pose proof (Rabs_pos (product_fl rnd fsin tick i - product_exact tick i)).
    assert (Hz : Rabs (product_fl rnd fsin tick i - product_exact tick i)
                 = 0%R) by lra.
    destruct (Req_dec (product_fl rnd fsin tick i - product_exact tick i) 0)
      as [E | E]; [|now apply Rabs_no_R0 in E].
    f_equal. lra.
Qed.

Lemma col_offsets_float_witness :
  col_offsets_fl (fun z => z) sin 0 !! 3%nat
  = Some (py_int (product_exact 0 3)).
Proof.
  destruct (col_offsets_float (fun z => z) sin 0 4096 0 3)
    as (Hentry & _ & _ & Hexact).
  - apply exact_arith. lra.
  - rewrite Rabs_R0. lra.
  - lia.
  - rewrite Hentry, (Hexact eq_refl). reflexivity.
Defined.

(** [sin(3 * 12.566 / 13)] is between 0.2 and 0.25. *)
Lemma sin_angle_3_tight : (1 / 5 <= sin (18849 / 6500) <= 1 / 4)%R.
Proof.
  assert (H0 : (0 <= 18849 / 6500)%R) by lra.
  assert (H1 : (18849 / 6500 <= PI)%R) by (pose proof PI_above_3; lra).
  destruct (SIN _ H0 H1) as [Hlb Hub].
  rewrite sin_lb_poly in Hlb. rewrite sin_ub_poly in Hub.
  split; lra.
Qed.

Lemma product_exact_0_3 : (11 / 10 <= product_exact 0 3 <= 11 / 8)%R.
Proof.
  unfold product_exact.
  rewrite (Q2R_const (weight 3) 11 30) by (vm_compute; reflexivity).
  rewrite (Q2R_const (angle 3) 18849 6500) by (vm_compute; reflexivity).
  replace (0 / 200 + 18849 / 6500)%R with (18849 / 6500)%R by lra.
  pose proof sin_angle_3_tight. lra.
Qed.

(** In every floating-point arithmetic the entry of boundary 3 at
    tick 0 is 1. *)
Lemma col_offsets_fl_0_3 (rnd fsin : R -> R) (u B : R) :
  float_arith rnd fsin u B -> col_offsets_fl rnd fsin 0 !! 3%nat = Some 1.
Proof.
  intros HA.
  rewrite (col_offsets_fl_lookup rnd fsin u B) by (assumption || lia).
  f_equal.
  assert (HB : (Rabs (IZR 0) + 4096 <= B)%R)
    by (rewrite Rabs_R0; destruct HA as (_ & HB & _); lra).
  pose proof (product_fl_close rnd fsin u B HA 0 HB 3 ltac:(lia))
    as Hclose.
  rewrite Rabs_R0 in Hclose. apply Rabs_both in Hclose.
  destruct HA as (Hu & _).
  pose proof product_exact_0_3.
  apply py_int_between; [lia|]. lra.
Qed.

(** C2, as the specification words it, fails in every floating-point
    arithmetic: at tick 0 the entry of boundary 3 is 1, the formula
    gives 0 (its angle is [pi]). *)
Lemma spec_offsets_claim_fails_in_floats :
  col_offsets_fl (fun z => z) sin 0 !! 3%nat = Some 1 /\
  spec_offset 0 3 = 0 /\
  ~ (exists rnd fsin u B,
        float_arith rnd fsin u B /\ spec_offsets_claim_in rnd fsin).
Proof.
  split; [apply (col_offsets_fl_0_3 _ _ 0 4096), exact_arith; lra|].
  split; [exact spec_offset_0_3|].
  intros (rnd & fsin & u & B & HA & Hclaim).
  specialize (Hclaim 0 3%nat ltac:(lia) ltac:(lia)).
  rewrite (col_offsets_fl_0_3 rnd fsin u B HA) in Hclaim.
  change (inject_Z 0) with 0%Q in Hclaim.
  rewrite spec_offset_0_3 in Hclaim. discriminate.
Qed.
